(** * Report scheduling and delivery: superset/tasks/schedules.py

    A shallow embedding of the email-report pipeline of
    [superset/tasks/schedules.py] and of the schedule models of
    [superset/models/schedules.py].

    - Part I   : time, cron expressions and the cron iterator interface.
    - Part II  : exceptions and [next_schedules], the cron window resolver.
    - Part III : data model, external calls and the effect monad.
    - Part IV  : the delivery flows and the dispatch loop.
    - Part V   : theorems.

    Conventions.  A naive [datetime] is the number of whole seconds since
    1970-01-01T00:00:00; a [timedelta] is a number of seconds.  Python
    exceptions are values of [exn]; code that talks to the outside world
    (browser driver, HTTP, mail transport, schedule store, task queue) runs
    in the monad [M], which threads the chronological log of external calls
    and asks an oracle for the outcome of each call. *)

From Stdlib Require Import ZArith List String Ascii Bool Lia Sorted.
From stdpp Require Import gmap strings pretty.
Import ListNotations.

Local Open Scope string_scope.
Local Open Scope list_scope.
Local Open Scope Z_scope.

(* ===================================================================== *)
(** * Part I: time and cron expressions                                   *)
(* ===================================================================== *)

Module Time.

(** [datetime.min], 0001-01-01T00:00:00, as seconds before the epoch. *)
Definition datetime_min : Z := -62135596800.

(** Calendar fields of a timestamp (proleptic Gregorian calendar). *)
Record civil := { month : Z; day : Z; hour : Z; minute : Z; weekday : Z }.

Definition civil_of (t : Z) : civil :=
  let days := t / 86400 in
  let secs := t mod 86400 in
  let z := days + 719468 in
  let era := z / 146097 in
  let doe := z - era * 146097 in
  let yoe := (doe - doe / 1460 + doe / 36524 - doe / 146096) / 365 in
  let doy := doe - (365 * yoe + yoe / 4 - yoe / 100) in
  let mp := (5 * doy + 2) / 153 in
  {| month := if mp <? 10 then mp + 3 else mp - 9;
     day := doy - (153 * mp + 2) / 5 + 1;
     hour := secs / 3600;
     minute := (secs mod 3600) / 60;
     (* 0 is Sunday; 1970-01-01 was a Thursday *)
     weekday := (days + 4) mod 7 |}.

End Time.

Module Cron.

(** One comma-separated element of a field: [*], [*/n], [a], [a-b],
    [a/n] or [a-b/n]. *)
Inductive item :=
| Every (step : Z)
| Span (lo hi step : Z).

Record field := { bare_star : bool; items : list item }.

Record expr := {
  e_minute : field; e_hour : field; e_dom : field;
  e_month : field; e_dow : field }.

(** ** Parsing *)

Fixpoint split_on (sep : ascii) (s : string) : list string :=
  match s with
  | EmptyString => [EmptyString]
  | String c s' =>
      if Ascii.eqb c sep then EmptyString :: split_on sep s'
      else match split_on sep s' with
           | [] => [String c EmptyString]
           | w :: ws => String c w :: ws
           end
  end.

Definition nonempty (s : string) : bool :=
  match s with EmptyString => false | _ => true end.

(** [str.split()] on blanks: empty words are dropped. *)
Definition words (s : string) : list string :=
  filter (fun w => nonempty w = true) (split_on " "%char s).

Fixpoint parse_digits (s : string) (acc : Z) : option Z :=
  match s with
  | EmptyString => Some acc
  | String c s' =>
      let n := Z.of_nat (nat_of_ascii c) in
      if (48 <=? n) && (n <=? 57)
      then parse_digits s' (10 * acc + (n - 48))
      else None
  end.

Definition parse_number (s : string) : option Z :=
  if nonempty s then parse_digits s 0 else None.

Definition in_range (lo hi v : Z) : bool := (lo <=? v) && (v <=? hi).

Definition parse_span (fmin fmax : Z) (s : string) (step : option Z)
  : option item :=
  match split_on "-"%char s with
  | [a] =>
      match parse_number a with
      | Some a' =>
          if in_range fmin fmax a' then
            match step with
            | None => Some (Span a' a' 1)
            | Some st => Some (Span a' fmax st)
            end
          else None
      | None => None
      end
  | [a; b] =>
      match parse_number a, parse_number b with
      | Some a', Some b' =>
          if in_range fmin fmax a' && in_range fmin fmax b' && (a' <=? b')
          then Some (Span a' b' (default 1 step))
          else None
      | _, _ => None
      end
  | _ => None
  end.

Definition parse_item (fmin fmax : Z) (s : string) : option item :=
  match split_on "/"%char s with
  | [base] =>
      if String.eqb base "*" then Some (Every 1)
      else parse_span fmin fmax base None
  | [base; st] =>
      match parse_number st with
      | Some n =>
          if 1 <=? n then
            if String.eqb base "*" then Some (Every n)
            else parse_span fmin fmax base (Some n)
          else None
      | None => None
      end
  | _ => None
  end.

Fixpoint parse_items (fmin fmax : Z) (l : list string) : option (list item) :=
  match l with
  | [] => Some []
  | s :: l' =>
      match parse_item fmin fmax s, parse_items fmin fmax l' with
      | Some i, Some is' => Some (i :: is')
      | _, _ => None
      end
  end.

Definition parse_field (fmin fmax : Z) (s : string) : option field :=
  match parse_items fmin fmax (split_on ","%char s) with
  | Some is' => Some {| bare_star := String.eqb s "*"; items := is' |}
  | None => None
  end.

(** Five blank-separated fields: minute hour day-of-month month
    day-of-week.  Anything else is a bad cron expression. *)
Definition parse (s : string) : option expr :=
  match words s with
  | [mi; ho; dm; mo; dw] =>
      match parse_field 0 59 mi, parse_field 0 23 ho, parse_field 1 31 dm,
            parse_field 1 12 mo, parse_field 0 6 dw with
      | Some a, Some b, Some c, Some d, Some e =>
          Some {| e_minute := a; e_hour := b; e_dom := c;
                  e_month := d; e_dow := e |}
      | _, _, _, _, _ => None
      end
  | _ => None
  end.

(** ** Matching *)

Definition item_matches (fmin : Z) (i : item) (v : Z) : bool :=
  match i with
  | Every st => (v - fmin) mod st =? 0
  | Span lo hi st => (lo <=? v) && (v <=? hi) && ((v - lo) mod st =? 0)
  end.

Definition field_matches (fmin : Z) (f : field) (v : Z) : bool :=
  existsb (fun i => item_matches fmin i v) (items f).

(** A firing time is a whole minute whose calendar fields are all allowed;
    when both day fields are restricted, either of them may allow the
    day. *)
Definition matches (e : expr) (t : Z) : bool :=
  let c := Time.civil_of t in
  let dom_ok := field_matches 1 (e_dom e) (Time.day c) in
  let dow_ok := field_matches 0 (e_dow e) (Time.weekday c) in
  (t mod 60 =? 0)
  && field_matches 0 (e_minute e) (Time.minute c)
  && field_matches 0 (e_hour e) (Time.hour c)
  && field_matches 1 (e_month e) (Time.month c)
  && (if bare_star (e_dom e) || bare_star (e_dow e)
      then dom_ok && dow_ok else dom_ok || dow_ok).

(** ** Next firing time *)

(** Scan [2^k]-bounded runs of whole minutes starting at [t]: [inl r] is
    the first matching minute, [inr t'] the minute at which the scan would
    go on. *)
Fixpoint scan (p : positive) (f : Z -> bool) (t : Z) : Z + Z :=
  match p with
  | xH => if f t then inl t else inr (t + 60)
  | xO p' =>
      match scan p' f t with
      | inl r => inl r
      | inr t' => scan p' f t'
      end
  | xI p' =>
      if f t then inl t
      else match scan p' f (t + 60) with
           | inl r => inl r
           | inr t' => scan p' f t'
           end
  end.

(** The iterator gives up (a bad-date error) when no firing time exists
    within the search horizon, here 2^25 minutes (about 63 years). *)
Definition horizon : positive := 33554432.

(** The first firing time strictly after [t]. *)
Definition get_next (e : expr) (t : Z) : option Z :=
  match scan horizon (matches e) ((t / 60 + 1) * 60) with
  | inl r => Some r
  | inr _ => None
  end.

End Cron.

(** The interface [next_schedules] needs from the [croniter] package:
    construction from a crontab string (which may be rejected), and an
    iterator step that returns a firing time strictly after the current
    time of the iterator, or fails when there is none. *)
Class Croniter := {
  cron : Type;
  croniter_new : string -> option cron;
  cron_match : cron -> Z -> bool;
  get_next : cron -> Z -> option Z;
  get_next_later : forall c t t', get_next c t = Some t' -> t < t';
  get_next_match : forall c t t', get_next c t = Some t' -> cron_match c t' = true
}.

(* ===================================================================== *)
(** * Part II: the cron window resolver                                   *)
(* ===================================================================== *)

(** Python exceptions raised anywhere in the pipeline.
    [NoSuchElementException] is a subclass of [WebDriverException]. *)
Inductive exn :=
| TypeError
| AttributeError
| UnboundLocalError
| KeyError
| IndexError
| RuntimeError (msg : string)
| WebDriverException
| NoSuchElementException
| RemoteDisconnected
| ConnectionResetError
| HTTPError
| SMTPException
| CroniterBadCronError
| CroniterBadDateError.

(** How a run of the generator ends: the loop was left ([break]), an
    exception escaped, or the run was cut short by the step budget of the
    model. *)
Inductive gen_end :=
| StopIteration
| Raised (e : exn)
| OutOfFuel.

(** A run of the generator: the timestamps it yielded, the candidates it
    pulled from the cron iterator (both in order), and how it ended. *)
Record gen_run := {
  yielded : list Z;
  pulled : list Z;
  ending : gen_end }.

Definition gen_stop (e : gen_end) : gen_run :=
  {| yielded := []; pulled := []; ending := e |}.

Definition gen_pull (eta : Z) (r : gen_run) : gen_run :=
  {| yielded := yielded r; pulled := eta :: pulled r; ending := ending r |}.

Definition gen_yield (eta : Z) (r : gen_run) : gen_run :=
  {| yielded := eta :: yielded r; pulled := eta :: pulled r;
     ending := ending r |}.

Section Resolver.

Context `{Croniter}.

(** The body of [for eta in crons.all_next(datetime)]: [cur] is the
    current time of the iterator, [previous] the last timestamp kept. *)
Fixpoint all_next_loop (fuel : nat) (c : cron)
    (cur previous start_at stop_at resolution : Z) : gen_run :=
  match fuel with
  | O => gen_stop OutOfFuel
  | S fuel' =>
      match get_next c cur with
      | None => gen_stop (Raised CroniterBadDateError)
      | Some eta =>
          (* Do not cross the time boundary *)
          if eta >=? stop_at then gen_pull eta (gen_stop StopIteration)
          else if eta <? start_at then
            gen_pull eta
              (all_next_loop fuel' c eta previous start_at stop_at resolution)
          (* Do not allow very frequent tasks *)
          else if eta - previous <? resolution then
            gen_pull eta
              (all_next_loop fuel' c eta previous start_at stop_at resolution)
          else
            gen_yield eta
              (all_next_loop fuel' c eta eta start_at stop_at resolution)
      end
  end.

Definition next_schedules_fuel (fuel : nat) (crontab : string)
    (start_at stop_at resolution : Z) : gen_run :=
  match croniter_new crontab with
  | None => gen_stop (Raised CroniterBadCronError)
  | Some crons =>
      all_next_loop fuel crons start_at Time.datetime_min
        start_at stop_at resolution
  end.

(** Iterations that a window can need: the iterator advances by at least
    one second per pull, and the pull that reaches [stop_at] is the last. *)
Definition window_fuel (start_at stop_at : Z) : nat :=
  S (Z.to_nat (stop_at - start_at)).

Definition next_schedules (crontab : string)
    (start_at stop_at resolution : Z) : gen_run :=
  next_schedules_fuel (window_fuel start_at stop_at) crontab
    start_at stop_at resolution.

End Resolver.

(* ===================================================================== *)
(** * Part III: data model, external calls and the effect monad           *)
(* ===================================================================== *)

(** ** superset/models/schedules.py *)

Module ScheduleType.
Inductive t := slice | dashboard.
End ScheduleType.

Module EmailDeliveryType.
Inductive t := attachment | inline.
End EmailDeliveryType.

Module SliceEmailReportFormat.
Inductive t := visualization | data.
End SliceEmailReportFormat.

Record Dashboard := { slug : string; dashboard_title : string }.

Record Slice := { slice_id : Z; slice_name : string }.

(** The columns shared by both schedule tables.  [delivery_type] is a
    nullable enum column. *)
Record EmailSchedule := {
  id : Z;
  active : bool;
  crontab : string;
  recipients : string;
  deliver_as_group : bool;
  delivery_type : option EmailDeliveryType.t }.

Record DashboardEmailSchedule := {
  dashboard_columns : EmailSchedule;
  dashboard : Dashboard }.

Record SliceEmailSchedule := {
  slice_columns : EmailSchedule;
  slice : Slice;
  email_format : option SliceEmailReportFormat.t }.

Definition get_scheduler_model (report_type : ScheduleType.t) : Type :=
  match report_type with
  | ScheduleType.dashboard => DashboardEmailSchedule
  | ScheduleType.slice => SliceEmailSchedule
  end.

(** The inherited [EmailSchedule] columns of a record of either table. *)
Definition columns (report_type : ScheduleType.t)
  : get_scheduler_model report_type -> EmailSchedule :=
  match report_type with
  | ScheduleType.dashboard => dashboard_columns
  | ScheduleType.slice => slice_columns
  end.

(** ** Values exchanged with the collaborators *)

Definition bytes := string.

(** The [to] argument of the mail transport: one address string, or a tuple
    of strings. *)
Inductive to_value :=
| ToStr (s : string)
| ToTuple (l : list string).

Definition driver := nat.

Record element := { el_driver : driver; el_selector : string }.

Record Response := { status_ok : bool; content : bytes }.

Record EmailContent := {
  body : string;
  data : option (gmap string bytes);
  images : option (gmap string bytes) }.

(** ** External calls *)

Inductive call : Type -> Type :=
(* schedule store *)
| StoreGet (rt : ScheduleType.t) (schedule_id : Z)
    : call (option (get_scheduler_model rt))
| StoreFilterActive (rt : ScheduleType.t)
    : call (list (get_scheduler_model rt))
(* task queue: schedule_email_report.apply_async(args=..., eta=...) *)
| ApplyAsync (rt : ScheduleType.t) (schedule_id : Z) (eta : Z) : call unit
(* clock *)
| DatetimeNow : call Z
| Sleep (seconds : Z) : call unit
(* web application session *)
| FindUser (name : option string) : call (option string)
| LoginUser (user : option string) : call unit
| SaveSession : call (list (string * string))
(* browser driver *)
| WebDriverNew (browser : string) (arguments : list string)
    (configuration : gmap string string) : call driver
| DriverGet (d : driver) (url : string) : call unit
| FindElementsById (d : driver) (name : string) : call (list element)
| AddCookie (d : driver) (name value : string) : call unit
| SetWindowSize (d : driver) (width height : Z) : call unit
| FindElementById (d : driver) (name : string) : call element
| FindElementByClassName (d : driver) (name : string) : call element
| ScreenshotAsPng (e : element) : call bytes
| DriverScreenshot (d : driver) : call bytes
| DriverQuit (d : driver) : call unit
(* HTTP client *)
| RequestsGet (url : string) (cookies : gmap string string) : call Response
(* mail *)
| MakeMsgid (domain : string) : call string
| SendEmailSmtp (to : to_value) (subject body : string)
    (data images : option (gmap string bytes)) (bcc : option string)
    (mime_subtype : string) : call unit.

(** One entry of the log: the call made and how it ended. *)
Record event := Called {
  ev_type : Type;
  ev_call : call ev_type;
  ev_result : exn + ev_type }.

Arguments Called {ev_type} ev_call ev_result.

Definition log := list event.

(** ** Configuration and pure helpers of the environment *)

Record Config := {
  EMAIL_REPORT_BCC_ADDRESS : option string;
  EMAIL_REPORTS_USER : option string;
  EMAIL_REPORTS_WEBDRIVER : option string;
  EMAIL_REPORTS_SUBJECT_PREFIX : option string;
  SMTP_MAIL_FROM : option string;
  WEBDRIVER_BASEURL : option string;
  WEBDRIVER_CONFIGURATION : option (gmap string string);
  WEBDRIVER_WINDOW : option (gmap string (Z * Z)) }.

(** What the pipeline is run against: the application configuration, the
    pure library functions it calls, and an oracle that decides, from the
    log so far, how each external call ends. *)
Record Env := {
  config : Config;
  url_for : string -> list (string * string) -> string;
  urljoin : option string -> string -> string;
  parse_cookie : string -> gmap string string;
  parseaddr : option string -> string * string;
  render_template :
    string -> list bytes -> list (list bytes) -> string -> string -> string;
  get_email_address_list : string -> list string;
  oracle : forall T, log -> call T -> exn + T }.

(** ** The monad *)

Definition M (A : Type) : Type := log -> (exn + A) * log.

Definition ret {A} (a : A) : M A := fun tr => (inr a, tr).

Definition raise {A} (e : exn) : M A := fun tr => (inl e, tr).

Definition bind {A B} (m : M A) (k : A -> M B) : M B :=
  fun tr =>
    match m tr with
    | (inr a, tr') => k a tr'
    | (inl e, tr') => (inl e, tr')
    end.

Notation "'do' x <- c ; k" := (bind c (fun x => k))
  (at level 10, x name, c at level 100, k at level 200, format "'[v' 'do'  x  <-  c ; '/' k ']'").

(** An external call: ask the oracle and append the call to the log. *)
Definition perform (env : Env) {T} (c : call T) : M T :=
  fun tr =>
    let r := oracle env T tr c in
    (r, tr ++ [Called c r]).

(** [for x in l: body(x)] *)
Fixpoint for_each {A} (l : list A) (body : A -> M unit) : M unit :=
  match l with
  | [] => ret tt
  | x :: l' => do _ <- body x; for_each l' body
  end.

(** [try: body / except <handles>: handler] *)
Definition try_except {A} (body : M A) (handles : exn -> bool)
    (handler : M A) : M A :=
  fun tr =>
    match body tr with
    | (inl e, tr') => if handles e then handler tr' else (inl e, tr')
    | r => r
    end.

(** [try: body / finally: final]: [final] runs on every way out of [body];
    an exception of [final] replaces the outcome of [body]. *)
Definition try_finally {A} (body : M A) (final : M unit) : M A :=
  fun tr =>
    match body tr with
    | (r, tr') =>
        match final tr' with
        | (inl e, tr'') => (inl e, tr'')
        | (inr _, tr'') => (r, tr'')
        end
    end.

(** Modelled from the spec: [retry] of [superset.utils] is not among the
    sources.  The element lookup "is wrapped in a bounded retry (one retry)
    that specifically catches transient connection-reset/disconnect errors
    from the browser driver transport; other errors propagate
    immediately". *)
Definition retry {A} (catches : exn -> bool) (f : M A) : M A :=
  try_except f catches f.

Definition is_WebDriverException (e : exn) : bool :=
  match e with
  | WebDriverException | NoSuchElementException => true
  | _ => false
  end.

Definition is_connection_reset (e : exn) : bool :=
  match e with
  | RemoteDisconnected | ConnectionResetError => true
  | _ => false
  end.

(** ** Small pieces of Python *)

(** [str(x)] of an optional string, as [%(key)s] formats it. *)
Definition py_str (o : option string) : string := default "None" o.

Definition quote : string := String (ascii_of_nat 34) EmptyString.

Definition lower_ascii (c : ascii) : ascii :=
  let n := nat_of_ascii c in
  if (Nat.leb 65 n && Nat.leb n 90)%bool then ascii_of_nat (n + 32) else c.

Fixpoint lower (s : string) : string :=
  match s with
  | EmptyString => EmptyString
  | String c s' => String (lower_ascii c) (lower s')
  end.

(** [bytes.splitlines()] for line-feed terminated lines. *)
Definition splitlines (b : bytes) : list bytes :=
  match b with
  | EmptyString => []
  | _ =>
      let parts := Cron.split_on (ascii_of_nat 10) b in
      match last parts with
      | Some EmptyString => removelast parts
      | _ => parts
      end
  end.

(** [d[k]] on a configuration entry that may be absent. *)
Definition subscript {V} (d : option (gmap string V)) (k : string) : M V :=
  match d with
  | None => raise TypeError
  | Some m =>
      match m !! k with
      | Some v => ret v
      | None => raise KeyError
      end
  end.

(** [l[i]] *)
Definition index {A} (l : list A) (i : nat) : M A :=
  match l !! i with
  | Some x => ret x
  | None => raise IndexError
  end.

(** [s[1:-1]] *)
Definition strip_ends (s : string) : string :=
  match s with
  | EmptyString => EmptyString
  | String _ s' => substring 0 (String.length s' - 1) s'
  end.

Definition is_str (o : option string) (s : string) : bool :=
  match o with
  | Some s' => String.eqb s' s
  | None => false
  end.

(* ===================================================================== *)
(** * Part IV: superset/tasks/schedules.py                                *)
(* ===================================================================== *)

(** Time in seconds, we will wait for the page to load and render *)
Definition PAGE_RENDER_WAIT : Z := 30.

(** Arguments of a positional Python call. *)
Inductive pyval :=
| PyScheduleType (rt : ScheduleType.t)
| PyDatetime (t : Z)
| PyInt (n : Z).

Section Tasks.

Context (env : Env) `{Croniter}.

Definition _get_recipients (schedule : EmailSchedule)
  : list (to_value * option string) :=
  let bcc := EMAIL_REPORT_BCC_ADDRESS (config env) in
  if deliver_as_group schedule then
    let to := ToTuple [recipients schedule] in
    [(to, bcc)]
  else
    map (fun to => (ToStr to, bcc))
        (get_email_address_list env (recipients schedule)).

Definition _deliver_email (schedule : EmailSchedule) (subject : string)
    (email : EmailContent) : M unit :=
  for_each (_get_recipients schedule) (fun '(to, bcc) =>
    perform env
      (SendEmailSmtp to subject (body email) (data email) (images email)
         bcc "related")).

Definition _generate_mail_content (schedule : EmailSchedule)
    (screenshot : bytes) (name url : string) : M EmailContent :=
  match delivery_type schedule with
  | Some EmailDeliveryType.attachment =>
      let images := None in
      let data := Some {[ "screenshot.jpg" := screenshot ]} in
      let body :=
        "<b><a href=" +:+ quote +:+ url +:+ quote
          +:+ ">Explore in Superset</a></b><p></p>" in
      ret {| body := body; data := data; images := images |}
  | Some EmailDeliveryType.inline =>
      (* Get the domain from the 'From' address ..
         and make a message id without the < > in the ends *)
      do domain <-
        index (Cron.split_on "@"%char
                 (snd (parseaddr env (SMTP_MAIL_FROM (config env))))) 1;
      do mid <- perform env (MakeMsgid domain);
      let msgid := strip_ends mid in
      let images := Some {[ msgid := screenshot ]} in
      let data := None in
      let body :=
        "<b><a href=" +:+ quote +:+ url +:+ quote
          +:+ ">Explore in Superset</a></b><p></p><img src="
          +:+ quote +:+ "cid:" +:+ msgid +:+ quote +:+ ">" in
      ret {| body := body; data := data; images := images |}
  | None =>
      (* neither branch bound [body], [data] and [images] *)
      raise UnboundLocalError
  end.

Fixpoint session_cookies (headers : list (string * string))
    (cookies : list string) : M (list string) :=
  match headers with
  | [] => ret cookies
  | (name, value) :: headers' =>
      if String.eqb (lower name) "set-cookie" then
        match parse_cookie env value !! "session" with
        | Some cookie => session_cookies headers' (cookies ++ [cookie])
        | None => raise KeyError
        end
      else session_cookies headers' cookies
  end.

Definition _get_auth_cookies : M (list string) :=
  (* Login with the user specified to get the reports *)
  do user <- perform env (FindUser (EMAIL_REPORTS_USER (config env)));
  do _ <- perform env (LoginUser user);
  (* A mock response object to get the cookie information from *)
  do headers <- perform env SaveSession;
  session_cookies headers [].

Definition create_webdriver : M driver :=
  (* Create a webdriver for use in fetching reports *)
  let which := EMAIL_REPORTS_WEBDRIVER (config env) in
  do browser <-
    (if is_str which "firefox" then ret "firefox"
     else if is_str which "chrome" then ret "chrome"
     else raise UnboundLocalError);
  do configuration <-
    match WEBDRIVER_CONFIGURATION (config env) with
    | Some kw => ret kw
    | None => raise TypeError
    end;
  (* Initialize the driver *)
  do driver <- perform env (WebDriverNew browser ["--headless"] configuration);
  let welcome_url :=
    urljoin env (WEBDRIVER_BASEURL (config env))
      (url_for env "Superset.welcome" []) in
  (* Hit the welcome URL and check if we were asked to login *)
  do _ <- perform env (DriverGet driver welcome_url);
  do elements <- perform env (FindElementsById driver "loginbox");
  match elements with
  | [] => ret driver
  | _ :: _ =>
      (* Set the cookies in the driver *)
      do cookies <- _get_auth_cookies;
      do _ <- for_each cookies (fun cookie =>
                perform env (AddCookie driver "session" cookie));
      ret driver
  end.

(** The capture shared by both screenshot flows: the element screenshot,
    the full-page screenshot when the driver refuses it, and
    [driver.quit()] in the [finally] clause. *)
Definition capture (driver : driver) (element : element) : M bytes :=
  try_finally
    (try_except (perform env (ScreenshotAsPng element))
       is_WebDriverException
       (perform env (DriverScreenshot driver)))
    (perform env (DriverQuit driver)).

Definition deliver_dashboard (schedule : DashboardEmailSchedule) : M unit :=
  let dashboard := dashboard schedule in
  let dashboard_url :=
    urljoin env (WEBDRIVER_BASEURL (config env))
      (url_for env "Superset.dashboard"
         [("dashboard_id", slug dashboard)]) in
  (* Create a driver, fetch the page, wait for the page to render *)
  do driver <- create_webdriver;
  do window <- subscript (WEBDRIVER_WINDOW (config env)) "dashboard";
  do _ <- perform env (SetWindowSize driver (fst window) (snd window));
  do _ <- perform env (DriverGet driver dashboard_url);
  do _ <- perform env (Sleep PAGE_RENDER_WAIT);
  (* Set up a function to retry once for the element. *)
  let get_element name :=
    retry is_connection_reset (perform env (FindElementById driver name)) in
  do element <- get_element "grid-container";
  do screenshot <- capture driver element;
  (* Generate the email body and attachments *)
  do email <-
    _generate_mail_content (dashboard_columns schedule) screenshot
      (dashboard_title dashboard) dashboard_url;
  let subject :=
    py_str (EMAIL_REPORTS_SUBJECT_PREFIX (config env))
      +:+ " " +:+ dashboard_title dashboard in
  _deliver_email (dashboard_columns schedule) subject email.

Definition _get_slice_data (schedule : SliceEmailSchedule)
  : M EmailContent :=
  let slc := slice schedule in
  let slice_url :=
    urljoin env (WEBDRIVER_BASEURL (config env))
      (url_for env "Superset.slice_json"
         [("slice_id", pretty (slice_id slc)); ("csv", "true")]) in
  (* URL to include in the email *)
  let url :=
    urljoin env (WEBDRIVER_BASEURL (config env))
      (url_for env "Superset.slice"
         [("slice_id", pretty (slice_id slc))]) in
  do auth <- _get_auth_cookies;
  let cookies :=
    fold_left (fun (cookies : gmap string string) cookie =>
                 <["session" := cookie]> cookies) auth ∅ in
  do response <- perform env (RequestsGet slice_url cookies);
  do _ <- (if status_ok response then ret tt else raise HTTPError);
  let rows := map (Cron.split_on ","%char) (splitlines (content response)) in
  match delivery_type (slice_columns schedule) with
  | Some EmailDeliveryType.inline =>
      let data := None in
      (* Parse the csv file and generate HTML *)
      match rows with
      | [] => raise IndexError
      | columns :: rows =>
          let body :=
            render_template env "superset/reports/slice_data.html"
              columns rows (slice_name slc) url in
          ret {| body := body; data := data; images := None |}
      end
  | Some EmailDeliveryType.attachment =>
      let data :=
        Some {[ slice_name slc +:+ ".csv" := content response ]} in
      let body :=
        "<b><a href=" +:+ quote +:+ url +:+ quote +:+ ">"
          +:+ slice_name slc +:+ "</a></b><br/>" in
      ret {| body := body; data := data; images := None |}
  | None => raise UnboundLocalError
  end.

Definition _get_slice_visualization (schedule : SliceEmailSchedule)
  : M EmailContent :=
  let slc := slice schedule in
  (* Create a driver, fetch the page, wait for the page to render *)
  do driver <- create_webdriver;
  do window <- subscript (WEBDRIVER_WINDOW (config env)) "slice";
  do _ <- perform env (SetWindowSize driver (fst window) (snd window));
  let slice_url :=
    urljoin env (WEBDRIVER_BASEURL (config env))
      (url_for env "Superset.slice"
         [("slice_id", pretty (slice_id slc))]) in
  do _ <- perform env (DriverGet driver slice_url);
  do _ <- perform env (Sleep PAGE_RENDER_WAIT);
  (* Set up a function to retry once for the element. *)
  let get_element name :=
    retry is_connection_reset
      (perform env (FindElementByClassName driver name)) in
  (* Get the chart-container element *)
  do element <- get_element "chart-container";
  do screenshot <- capture driver element;
  (* Generate the email body and attachments *)
  _generate_mail_content (slice_columns schedule) screenshot
    (slice_name slc) slice_url.

Definition deliver_slice (schedule : SliceEmailSchedule) : M unit :=
  do email <-
    match email_format schedule with
    | Some SliceEmailReportFormat.data => _get_slice_data schedule
    | Some SliceEmailReportFormat.visualization =>
        _get_slice_visualization schedule
    | None => raise (RuntimeError "Unknown email report format")
    end;
  let subject :=
    py_str (EMAIL_REPORTS_SUBJECT_PREFIX (config env))
      +:+ " " +:+ slice_name (slice schedule) in
  _deliver_email (slice_columns schedule) subject email.

(** The body of the delivery task.  The task decorator (registration with
    the queue, [bind], the soft time limit of 300 seconds) belongs to the
    task queue and is not part of the model. *)
Definition schedule_email_report (report_type : ScheduleType.t)
    (schedule_id : Z) : M unit :=
  do schedule <- perform env (StoreGet report_type schedule_id);
  match schedule with
  | None =>
      (* [schedule.active] on [None] *)
      raise AttributeError
  | Some schedule =>
      (* The user may have disabled the schedule. If so, ignore this *)
      if negb (active (columns report_type schedule)) then ret tt
      else
        match report_type
              return get_scheduler_model report_type -> M unit with
        | ScheduleType.dashboard => deliver_dashboard
        | ScheduleType.slice => deliver_slice
        end schedule
  end.

(** [for eta in generator: body(eta)]: the body runs for each yielded
    timestamp, then an exception that ended the generator escapes. *)
Definition for_each_yielded (run : gen_run) (body : Z -> M unit) : M unit :=
  do _ <- for_each (yielded run) body;
  match ending run with
  | Raised e => raise e
  | StopIteration | OutOfFuel => ret tt
  end.

Definition schedule_window (report_type : ScheduleType.t)
    (start_at stop_at resolution : Z) : M unit :=
  do schedules <- perform env (StoreFilterActive report_type);
  for_each schedules (fun schedule =>
    let schedule_id := id (columns report_type schedule) in
    (* Schedule the job for the specified time window *)
    for_each_yielded
      (next_schedules (crontab (columns report_type schedule))
         start_at stop_at resolution)
      (fun eta => perform env (ApplyAsync report_type schedule_id eta))).

(** A positional call of [schedule_window]: the function has four
    positional parameters and none of them has a default value. *)
Definition call_schedule_window (args : list pyval) : M unit :=
  match args with
  | [report_type; start_at; stop_at; resolution] =>
      match report_type, start_at, stop_at, resolution with
      | PyScheduleType rt, PyDatetime s, PyDatetime e, PyInt r =>
          schedule_window rt s e r
      | _, _, _, _ => raise TypeError
      end
  | _ => raise TypeError
  end.

(** Celery beat job meant to be invoked hourly *)
Definition schedule_hourly : M unit :=
  (* Get the top of the hour *)
  do now <- perform env DatetimeNow;
  let start_at := now - now mod 3600 in
  let stop_at := start_at + 3600 in
  do _ <- call_schedule_window
            [PyScheduleType ScheduleType.dashboard;
             PyDatetime start_at; PyDatetime stop_at];
  call_schedule_window
    [PyScheduleType ScheduleType.slice;
     PyDatetime start_at; PyDatetime stop_at].

End Tasks.

(** ** Reading the log *)

(** The [(to, bcc)] of a send handed to the mail transport. *)
Definition send_of (ev : event) : option (to_value * option string) :=
  match ev_call ev with
  | SendEmailSmtp to _ _ _ _ bcc _ => Some (to, bcc)
  | _ => None
  end.

Definition sends (tr : log) : list (to_value * option string) :=
  omap send_of tr.

Definition succeeded (ev : event) : bool :=
  match ev_result ev with inr _ => true | inl _ => false end.

(** Calls that go over the network: browser capture, export fetch, send. *)
Definition is_network (ev : event) : bool :=
  match ev_call ev with
  | WebDriverNew _ _ _ | DriverGet _ _ | FindElementsById _ _
  | AddCookie _ _ _ | SetWindowSize _ _ _ | FindElementById _ _
  | FindElementByClassName _ _ | ScreenshotAsPng _ | DriverScreenshot _
  | DriverQuit _ | RequestsGet _ _ | SendEmailSmtp _ _ _ _ _ _ _ => true
  | _ => false
  end.

(** The browser session a log entry created, if it created one. *)
Definition opened_by (ev : event) : option driver :=
  match ev_call ev in call T return exn + T -> option driver with
  | WebDriverNew _ _ _ =>
      fun r => match r with inr d => Some d | inl _ => None end
  | _ => fun _ => None
  end (ev_result ev).

(** The browser session a log entry asked to terminate. *)
Definition quit_by (ev : event) : option driver :=
  match ev_call ev with
  | DriverQuit d => Some d
  | _ => None
  end.

(** Sessions that were created and for which [quit] was never called. *)
Definition leaked (tr : log) : list driver :=
  list_difference (omap opened_by tr) (omap quit_by tr).

(** ** Scenarios *)

(** Modelled from the spec: [get_email_address_list] of [superset.utils] is
    not among the sources.  "The recipient specification is parsed as a
    delimited list of individual addresses", the delimiter of the spec's
    example being the comma. *)
Definition comma_address_list (s : string) : list string :=
  Cron.split_on ","%char s.

(** What each collaborator answers when nothing goes wrong: an empty
    store, no login prompt, a session numbered 0, a two-line export. *)
Definition answer {T} (c : call T) : T :=
  match c in call T return T with
  | StoreGet _ _ => None
  | StoreFilterActive _ => []
  | ApplyAsync _ _ _ => tt
  | DatetimeNow => 1704069000
  | Sleep _ => tt
  | FindUser name => name
  | LoginUser _ => tt
  | SaveSession => [("Set-Cookie", "session=s3cr3t")]
  | WebDriverNew _ _ _ => 0%nat
  | DriverGet _ _ => tt
  | FindElementsById _ _ => []
  | AddCookie _ _ _ => tt
  | SetWindowSize _ _ _ => tt
  | FindElementById d name => {| el_driver := d; el_selector := name |}
  | FindElementByClassName d name => {| el_driver := d; el_selector := name |}
  | ScreenshotAsPng _ => "PNG"
  | DriverScreenshot _ => "PAGE"
  | DriverQuit _ => tt
  | RequestsGet _ _ =>
      {| status_ok := true;
         content := "a,b" +:+ String (ascii_of_nat 10) "1,2" |}
  | MakeMsgid domain => "<1@" +:+ domain +:+ ">"
  | SendEmailSmtp _ _ _ _ _ _ _ => tt
  end.

Definition example_config : Config := {|
  EMAIL_REPORT_BCC_ADDRESS := Some "audit@x.com";
  EMAIL_REPORTS_USER := Some "admin";
  EMAIL_REPORTS_WEBDRIVER := Some "firefox";
  EMAIL_REPORTS_SUBJECT_PREFIX := Some "[Report]";
  SMTP_MAIL_FROM := Some "superset@x.com";
  WEBDRIVER_BASEURL := Some "http://0.0.0.0:8080";
  WEBDRIVER_CONFIGURATION := Some ∅;
  WEBDRIVER_WINDOW :=
    Some (<["dashboard" := (1600, 2000)]> (<["slice" := (3000, 1200)]> ∅)) |}.

(** An environment around a given oracle. *)
Definition example_env (o : forall T, log -> call T -> exn + T) : Env := {|
  config := example_config;
  url_for := fun endpoint _ => "/" +:+ endpoint;
  urljoin := fun base path => default EmptyString base +:+ path;
  parse_cookie := fun _ => <["session" := "s3cr3t"]> ∅;
  parseaddr := fun a => (EmptyString, default EmptyString a);
  render_template := fun _ _ _ name _ => name;
  get_email_address_list := comma_address_list;
  oracle := o |}.

(** Every call succeeds. *)
Definition all_fine : forall T, log -> call T -> exn + T :=
  fun T _ c => inr (answer c).

(** The store holds the given record under every id. *)
Definition store_holds (rt : ScheduleType.t) (s : get_scheduler_model rt)
  : forall T, log -> call T -> exn + T :=
  fun T _ c =>
    match c in call T return exn + T with
    | StoreGet rt' _ =>
        inr (match rt as a, rt' as b
                   return get_scheduler_model a ->
                          option (get_scheduler_model b) with
             | ScheduleType.dashboard, ScheduleType.dashboard => Some
             | ScheduleType.slice, ScheduleType.slice => Some
             | _, _ => fun _ => None
             end s)
    | c' => inr (answer c')
    end.

(** The mail transport refuses the address [a@x.com]. *)
Definition transport_refuses_a : forall T, log -> call T -> exn + T :=
  fun T _ c =>
    match c in call T return exn + T with
    | SendEmailSmtp (ToStr "a@x.com") _ _ _ _ _ _ => inl SMTPException
    | c' => inr (answer c')
    end.

(** The page has no element to capture. *)
Definition element_missing : forall T, log -> call T -> exn + T :=
  fun T _ c =>
    match c in call T return exn + T with
    | FindElementById _ _ => inl NoSuchElementException
    | FindElementByClassName _ _ => inl NoSuchElementException
    | c' => inr (answer c')
    end.

Definition example_columns : EmailSchedule := {|
  id := 7;
  active := true;
  crontab := "0 * * * *";
  recipients := "a@x.com,b@x.com";
  deliver_as_group := false;
  delivery_type := Some EmailDeliveryType.attachment |}.

Definition example_dashboard : Dashboard :=
  {| slug := "births"; dashboard_title := "Births" |}.

Definition with_active (a : bool) (s : EmailSchedule) : EmailSchedule :=
  {| id := id s; active := a; crontab := crontab s;
     recipients := recipients s; deliver_as_group := deliver_as_group s;
     delivery_type := delivery_type s |}.

Definition with_delivery_type (d : option EmailDeliveryType.t)
    (s : EmailSchedule) : EmailSchedule :=
  {| id := id s; active := active s; crontab := crontab s;
     recipients := recipients s; deliver_as_group := deliver_as_group s;
     delivery_type := d |}.

Definition as_group (to : string) (s : EmailSchedule) : EmailSchedule :=
  {| id := id s; active := active s; crontab := crontab s;
     recipients := to; deliver_as_group := true;
     delivery_type := delivery_type s |}.

Definition example_email : EmailContent :=
  {| body := "<b>report</b>"; data := None; images := None |}.

Definition dashboard_schedule (columns : EmailSchedule)
  : DashboardEmailSchedule :=
  {| dashboard_columns := columns; dashboard := example_dashboard |}.

Definition slice_schedule (columns : EmailSchedule)
    (format : option SliceEmailReportFormat.t) : SliceEmailSchedule :=
  {| slice_columns := columns;
     slice := {| slice_id := 3; slice_name := "Trends" |};
     email_format := format |}.

Definition inactive_dashboard_schedule : DashboardEmailSchedule :=
  dashboard_schedule (with_active false example_columns).

(** ** Properties *)

(** Consecutive elements of [l], the first counted from [prev], are at
    least [r] apart. *)
Fixpoint spaced (r prev : Z) (l : list Z) : Prop :=
  match l with
  | [] => True
  | t :: l' => r <= t - prev /\ spaced r t l'
  end.

(** The claim that sends are independent: with individual delivery, every
    address of the recipient list gets a send attempt, whatever the
    transport does for the others. *)
Definition sends_are_independent : Prop :=
  forall (env : Env) (schedule : EmailSchedule) (subject : string)
         (email : EmailContent) (tr : log),
    deliver_as_group schedule = false ->
    forall a, In a (get_email_address_list env (recipients schedule)) ->
      In (ToStr a, EMAIL_REPORT_BCC_ADDRESS (config env))
         (sends (snd (_deliver_email env schedule subject email tr))).

(** The parsed form of the crontab "0 * * * *". *)
Definition every_hour : Cron.expr :=
  let star := {| Cron.bare_star := true; Cron.items := [Cron.Every 1] |} in
  {| Cron.e_minute :=
       {| Cron.bare_star := false; Cron.items := [Cron.Span 0 0 1] |};
     Cron.e_hour := star; Cron.e_dom := star;
     Cron.e_month := star; Cron.e_dow := star |}.

(** ** Footprints *)

(** [m] only appends to the log, and every call it appends satisfies [P]. *)
Definition emits {A} (P : event -> Prop) (m : M A) : Prop :=
  forall tr, exists evs, snd (m tr) = tr ++ evs /\ Forall P evs.

(** The calls of the dispatch loop for a report type and a window: the
    filtered read of the store, and enqueues of that report type with an
    eta inside the window. *)
Definition is_dispatch_call (rt : ScheduleType.t) (start_at stop_at : Z)
    (ev : event) : Prop :=
  match ev_call ev with
  | StoreFilterActive rt' => rt' = rt
  | ApplyAsync rt' _ eta => rt' = rt /\ start_at <= eta < stop_at
  | _ => False
  end.

(** The calls of the tabular export: the login of the reports user and the
    HTTP request. *)
Definition is_export_call (ev : event) : Prop :=
  match ev_call ev with
  | FindUser _ | LoginUser _ | SaveSession | RequestsGet _ _ => True
  | _ => False
  end.

(** Calls that neither terminate a browser session nor send mail. *)
Definition keeps_session (ev : event) : Prop :=
  quit_by ev = None /\ send_of ev = None.

(** Calls that neither create nor terminate a browser session and do not
    send mail. *)
Definition is_neutral (ev : event) : Prop :=
  opened_by ev = None /\ quit_by ev = None /\ send_of ev = None.

Fixpoint contains (c : ascii) (s : string) : bool :=
  match s with
  | EmptyString => false
  | String c' s' => Ascii.eqb c' c || contains c s'
  end.

(** The store lists the given records as the active schedules. *)
Definition store_lists (rt : ScheduleType.t)
    (l : list (get_scheduler_model rt))
  : forall T, log -> call T -> exn + T :=
  fun T _ c =>
    match c in call T return exn + T with
    | StoreFilterActive rt' =>
        inr (match rt as a, rt' as b
                   return list (get_scheduler_model a) ->
                          list (get_scheduler_model b) with
             | ScheduleType.dashboard, ScheduleType.dashboard => fun l => l
             | ScheduleType.slice, ScheduleType.slice => fun l => l
             | _, _ => fun _ => []
             end l)
    | c' => inr (answer c')
    end.

Definition with_crontab (c : string) (s : EmailSchedule) : EmailSchedule :=
  {| id := id s; active := active s; crontab := c;
     recipients := recipients s; deliver_as_group := deliver_as_group s;
     delivery_type := delivery_type s |}.

(** The enqueue calls of one schedule, one per timestamp. *)
Definition enqueued (rt : ScheduleType.t) (schedule_id : Z) (etas : list Z)
  : log :=
  map (fun eta => Called (ApplyAsync rt schedule_id eta) (inr tt)) etas.

(** An environment with a given configuration around a given oracle. *)
Definition configured_env (cfg : Config)
    (o : forall T, log -> call T -> exn + T) : Env := {|
  config := cfg;
  url_for := url_for (example_env o);
  urljoin := urljoin (example_env o);
  parse_cookie := parse_cookie (example_env o);
  parseaddr := parseaddr (example_env o);
  render_template := render_template (example_env o);
  get_email_address_list := comma_address_list;
  oracle := o |}.

Definition with_webdriver (name : option string) (cfg : Config) : Config := {|
  EMAIL_REPORT_BCC_ADDRESS := EMAIL_REPORT_BCC_ADDRESS cfg;
  EMAIL_REPORTS_USER := EMAIL_REPORTS_USER cfg;
  EMAIL_REPORTS_WEBDRIVER := name;
  EMAIL_REPORTS_SUBJECT_PREFIX := EMAIL_REPORTS_SUBJECT_PREFIX cfg;
  SMTP_MAIL_FROM := SMTP_MAIL_FROM cfg;
  WEBDRIVER_BASEURL := WEBDRIVER_BASEURL cfg;
  WEBDRIVER_CONFIGURATION := WEBDRIVER_CONFIGURATION cfg;
  WEBDRIVER_WINDOW := WEBDRIVER_WINDOW cfg |}.

Definition with_mail_from (from : option string) (cfg : Config) : Config := {|
  EMAIL_REPORT_BCC_ADDRESS := EMAIL_REPORT_BCC_ADDRESS cfg;
  EMAIL_REPORTS_USER := EMAIL_REPORTS_USER cfg;
  EMAIL_REPORTS_WEBDRIVER := EMAIL_REPORTS_WEBDRIVER cfg;
  EMAIL_REPORTS_SUBJECT_PREFIX := EMAIL_REPORTS_SUBJECT_PREFIX cfg;
  SMTP_MAIL_FROM := from;
  WEBDRIVER_BASEURL := WEBDRIVER_BASEURL cfg;
  WEBDRIVER_CONFIGURATION := WEBDRIVER_CONFIGURATION cfg;
  WEBDRIVER_WINDOW := WEBDRIVER_WINDOW cfg |}.

(** The export endpoint answers with an error status. *)
Definition export_refused : forall T, log -> call T -> exn + T :=
  fun T _ c =>
    match c in call T return exn + T with
    | RequestsGet _ _ => inr {| status_ok := false; content := "Forbidden" |}
    | c' => inr (answer c')
    end.

(** The cookie jar built by [_get_slice_data] from the session cookies. *)
Definition cookie_jar (auth : list string) : gmap string string :=
  match last auth with
  | Some cookie => {[ "session" := cookie ]}
  | None => ∅
  end.

(** The [Set-Cookie] headers of a response, whatever the case of the
    header name. *)
Definition set_cookie_headers (headers : list (string * string))
  : list (string * string) :=
  filter (fun h => lower (fst h) = "set-cookie") headers.

(** The log of a step of the flow: the sessions it created, the sessions
    it quit and the sends it made. *)
Definition tally (evs : log)
  : list driver * list driver * list (to_value * option string) :=
  (omap opened_by evs, omap quit_by evs, sends evs).

(** The log went from [tr] to [tr'] by calls with the tally [t]. *)
Definition advances (tr tr' : log)
    (t : list driver * list driver * list (to_value * option string))
  : Prop :=
  exists evs, tr' = tr ++ evs /\ tally evs = t.

(** The export endpoint answers with an empty body. *)
Definition export_empty : forall T, log -> call T -> exn + T :=
  fun T _ c =>
    match c in call T return exn + T with
    | RequestsGet _ _ => inr {| status_ok := true; content := EmptyString |}
    | c' => inr (answer c')
    end.

(* ===================================================================== *)
(** * Part V: theorems                                                    *)
(* ===================================================================== *)

(** ** The five-field cron iterator *)
Lemma scan_inl p f t r : Cron.scan p f t = inl r -> t <= r /\ f r = true.
Proof.
  revert t r.
  assert (Hinr : forall q u u', Cron.scan q f u = inr u' -> u <= u').
  { induction q as [q IH | q IH |]; intros u u'; simpl.
    - destruct (f u); [discriminate |].
      destruct (Cron.scan q f (u + 60)) as [x | x] eqn:E1; [discriminate |].
      intros E2. apply IH in E1. apply IH in E2. lia.
    - destruct (Cron.scan q f u) as [x | x] eqn:E1; [discriminate |].
      intros E2. apply IH in E1. apply IH in E2. lia.
    - destruct (f u); [discriminate |]. intros [= <-]. lia. }
  induction p as [p IH | p IH |]; intros t r; simpl.
  - destruct (f t) eqn:Ef; [intros [= <-]; split; [lia | exact Ef] |].
    destruct (Cron.scan p f (t + 60)) as [x | x] eqn:E1.
    + intros [= <-]. apply IH in E1. split; [lia | tauto].
    + intros E2. apply Hinr in E1. apply IH in E2. split; [lia | tauto].
  - destruct (Cron.scan p f t) as [x | x] eqn:E1.
    + intros [= <-]. apply IH in E1. exact E1.
    + intros E2. apply Hinr in E1. apply IH in E2. split; [lia | tauto].
  - destruct (f t) eqn:Ef; [| discriminate].
    intros [= <-]. split; [lia | exact Ef].
Qed.

Lemma cron_get_next_later e t t' : Cron.get_next e t = Some t' -> t < t'.
Proof.
  unfold Cron.get_next.
  destruct (Cron.scan _ _ _) as [r | r] eqn:E; [| discriminate].
  intros [= <-]. apply scan_inl in E. destruct E as [E _].
  pose proof (Z.mod_pos_bound t 60 ltac:(lia)).
  pose proof (Z.div_mod t 60 ltac:(lia)). lia.
Qed.

Lemma cron_get_next_match e t t' :
  Cron.get_next e t = Some t' -> Cron.matches e t' = true.
Proof.
  unfold Cron.get_next.
  destruct (Cron.scan _ _ _) as [r | r] eqn:E; [| discriminate].
  intros [= <-]. apply scan_inl in E. tauto.
Qed.

#[export] Instance five_field_croniter : Croniter := {|
  cron := Cron.expr;
  croniter_new := Cron.parse;
  cron_match := Cron.matches;
  get_next := Cron.get_next;
  get_next_later := cron_get_next_later;
  get_next_match := cron_get_next_match |}.

(** ** The cron window resolver *)

Lemma spaced_lookup r l : forall prev i a b,
  spaced r prev l -> l !! i = Some a -> l !! S i = Some b -> r <= b - a.
Proof.
  induction l as [| t l IH]; intros prev i a b Hs Ha Hb; [discriminate |].
  destruct Hs as [_ Hs]. destruct i as [| i].
  - injection Ha as <-. destruct l as [| u l]; [discriminate |].
    injection Hb as <-. exact (proj1 Hs).
  - exact (IH t i a b Hs Ha Hb).
Qed.

Section ResolverFacts.

Context `{Croniter}.

(** What one pass of the loop keeps: timestamps after the iterator's
    current time, inside the window, matching the expression, in
    increasing order and spaced by the resolution. *)
Lemma all_next_loop_yielded c start_at stop_at resolution :
  forall fuel cur previous,
    let run :=
      all_next_loop fuel c cur previous start_at stop_at resolution in
    Forall (fun t => cur < t /\ start_at <= t < stop_at
                     /\ cron_match c t = true) (yielded run)
    /\ StronglySorted Z.lt (yielded run)
    /\ spaced resolution previous (yielded run).
Proof.
  induction fuel as [| fuel IH]; intros cur previous; simpl.
  - repeat split; constructor.
  - destruct (get_next c cur) as [eta |] eqn:Enext; simpl;
      [| repeat split; constructor].
    pose proof (get_next_later _ _ _ Enext) as Hlater.
    pose proof (get_next_match _ _ _ Enext) as Hmatch.
    destruct (Z.geb_spec eta stop_at) as [Hge | Hlt]; simpl;
      [repeat split; constructor |].
    destruct (Z.ltb_spec eta start_at) as [Hbefore | Hin]; simpl.
    { destruct (IH eta previous) as (Hall & Hsorted & Hgap).
      split; [| split; assumption].
      eapply Forall_impl; [exact Hall |]. simpl. intros t Ht. intuition lia. }
    destruct (Z.ltb_spec (eta - previous) resolution) as [Hclose | Hfar];
      simpl.
    { destruct (IH eta previous) as (Hall & Hsorted & Hgap).
      split; [| split; assumption].
      eapply Forall_impl; [exact Hall |]. simpl. intros t Ht. intuition lia. }
    destruct (IH eta eta) as (Hall & Hsorted & Hgap).
    split; [| split].
    + constructor; [intuition lia |].
      eapply Forall_impl; [exact Hall |]. simpl. intros t Ht. intuition lia.
    + constructor; [exact Hsorted |].
      eapply Forall_impl; [exact Hall |]. simpl. intros t Ht. intuition lia.
    + split; [lia | exact Hgap].
Qed.

(** The loop cannot run out of steps once the budget exceeds the distance
    from the iterator's current time to the end of the window. *)
Lemma all_next_loop_ends c start_at stop_at resolution :
  forall fuel cur previous,
    (Z.to_nat (stop_at - cur) < fuel)%nat ->
    ending (all_next_loop fuel c cur previous start_at stop_at resolution)
    <> OutOfFuel.
Proof.
  induction fuel as [| fuel IH]; intros cur previous Hfuel; [lia |].
  simpl. destruct (get_next c cur) as [eta |] eqn:Enext; [| discriminate].
  pose proof (get_next_later _ _ _ Enext) as Hlater.
  destruct (Z.geb_spec eta stop_at) as [Hge | Hlt]; [discriminate |].
  assert (Hstep : (Z.to_nat (stop_at - eta) < fuel)%nat) by lia.
  destruct (eta <? start_at); [exact (IH eta previous Hstep) |].
  destruct (eta - previous <? resolution);
    [exact (IH eta previous Hstep) | exact (IH eta eta Hstep)].
Qed.

(** A run that ended by itself is not changed by a larger budget. *)
Lemma all_next_loop_stable c start_at stop_at resolution :
  forall fuel fuel' cur previous,
    (fuel <= fuel')%nat ->
    ending (all_next_loop fuel c cur previous start_at stop_at resolution)
    <> OutOfFuel ->
    all_next_loop fuel' c cur previous start_at stop_at resolution
    = all_next_loop fuel c cur previous start_at stop_at resolution.
Proof.
  induction fuel as [| fuel IH]; intros fuel' cur previous Hle Hend;
    [simpl in Hend; congruence |].
  destruct fuel' as [| fuel']; [lia |].
  simpl in *. destruct (get_next c cur) as [eta |]; [| reflexivity].
  destruct (eta >=? stop_at); [reflexivity |].
  destruct (eta <? start_at);
    [f_equal; apply IH; [lia | exact Hend] |].
  destruct (eta - previous <? resolution);
    f_equal; apply IH; solve [lia | exact Hend].
Qed.

(** The candidates pulled from the iterator: a candidate at or past
    [stop_at] is the last one pulled, a run that leaves the loop has
    pulled such a candidate, and there is at most one pull per step. *)
Lemma all_next_loop_pulled c start_at stop_at resolution :
  forall fuel cur previous,
    let run :=
      all_next_loop fuel c cur previous start_at stop_at resolution in
    (forall i t, pulled run !! i = Some t -> stop_at <= t ->
                 S i = length (pulled run))
    /\ (ending run = StopIteration ->
        exists t, last (pulled run) = Some t /\ stop_at <= t)
    /\ (length (pulled run) <= fuel)%nat.
Proof.
  induction fuel as [| fuel IH]; intros cur previous; simpl.
  - repeat split; [discriminate | discriminate | lia].
  - destruct (get_next c cur) as [eta |] eqn:Enext; simpl;
      [| repeat split; [discriminate | discriminate | lia]].
    destruct (Z.geb_spec eta stop_at) as [Hge | Hlt]; simpl.
    { repeat split; [| | lia].
      - intros [| i] t Hi Ht; [reflexivity | discriminate].
      - intros _. exists eta. split; [reflexivity | lia]. }
    assert (Hrec : forall run,
      ((forall i t, pulled run !! i = Some t -> stop_at <= t ->
                    S i = length (pulled run))
       /\ (ending run = StopIteration ->
           exists t, last (pulled run) = Some t /\ stop_at <= t)
       /\ (length (pulled run) <= fuel)%nat) ->
      (forall i t, (eta :: pulled run) !! i = Some t -> stop_at <= t ->
                   S i = S (length (pulled run)))
      /\ (ending run = StopIteration ->
          exists t, last (eta :: pulled run) = Some t /\ stop_at <= t)
      /\ (S (length (pulled run)) <= S fuel)%nat).
    { intros run (Hlast & Hstop & Hlen). repeat split; [| | lia].
      - intros [| i] t Hi Ht.
        + injection Hi as <-. lia.
        + f_equal. exact (Hlast i t Hi Ht).
      - intros Hend. destruct (Hstop Hend) as (t & Ht & Hge).
        exists t. split; [| exact Hge].
        destruct (pulled run) as [| u l]; [discriminate | exact Ht]. }
    destruct (eta <? start_at); simpl; [apply Hrec, IH |].
    destruct (eta - previous <? resolution); simpl; apply Hrec, IH.
Qed.

End ResolverFacts.

Lemma next_schedules_fuel_sound `{Croniter} fuel crontab start_at stop_at
    resolution :
  let ys :=
    yielded (next_schedules_fuel fuel crontab start_at stop_at resolution) in
  (forall t, In t ys ->
     start_at <= t < stop_at
     /\ exists c, croniter_new crontab = Some c /\ cron_match c t = true)
  /\ StronglySorted Z.lt ys
  /\ (forall i a b, ys !! i = Some a -> ys !! S i = Some b ->
        resolution <= b - a).
Proof.
  unfold next_schedules_fuel.
  destruct (croniter_new crontab) as [c |] eqn:Enew; simpl.
  - destruct (all_next_loop_yielded c start_at stop_at resolution fuel
                start_at Time.datetime_min) as (Hall & Hsorted & Hgap).
    split; [| split].
    + intros t Ht. rewrite Forall_forall in Hall.
      apply list_elem_of_In, Hall in Ht. destruct Ht as (_ & Hwin & Hm).
      split; [exact Hwin |]. exists c. split; [reflexivity | exact Hm].
    + exact Hsorted.
    + intros i a b. apply spaced_lookup with (prev := Time.datetime_min).
      exact Hgap.
  - split; [| split].
    + intros t [].
    + constructor.
    + intros i a b Ha. discriminate.
Qed.

(** C1.  For every cron expression, window and resolution, every timestamp
    yielded by [next_schedules] lies in [start_at, stop_at) and matches the
    cron expression, the yielded sequence is strictly increasing, and two
    consecutive yielded timestamps are at least [resolution] seconds
    apart. *)
Theorem next_schedules_sound `{Croniter} (crontab : string)
    (start_at stop_at resolution : Z) :
  let ys := yielded (next_schedules crontab start_at stop_at resolution) in
  (forall t, In t ys ->
     start_at <= t < stop_at
     /\ exists c, croniter_new crontab = Some c /\ cron_match c t = true)
  /\ StronglySorted Z.lt ys
  /\ (forall i a b, ys !! i = Some a -> ys !! S i = Some b ->
        resolution <= b - a).
Proof. apply next_schedules_fuel_sound. Qed.

(** C2.  With the cron expression "0 * * * *" and the window from
    2024-01-01T00:00:00 to 2024-01-01T03:00:00, [next_schedules] yields
    01:00 and 02:00 at resolution 0, and 01:00 alone at resolution 7200:
    the iterator is seeded with [start_at] and only returns later firing
    times, so the firing at the start of the window, which matches the
    expression, is never produced. *)
Theorem hourly_example_misses_window_start :
  yielded (next_schedules "0 * * * *" 1704067200 1704078000 0)
  = [1704070800; 1704074400]
  /\ yielded (next_schedules "0 * * * *" 1704067200 1704078000 7200)
     = [1704070800]
  /\ option_map (fun e => Cron.matches e 1704067200)
       (Cron.parse "0 * * * *") = Some true.
Proof. vm_compute. repeat split; reflexivity. Qed.

(** C3.  For every cron expression and window, [next_schedules]
    terminates: the run ends by itself within the step budget of the
    window, whatever larger budget is given; a candidate at or past
    [stop_at] is the last one pulled from the iterator, a run that leaves
    the loop has pulled exactly such a candidate last, the number of pulls
    is bounded by the length of the window, and an empty window yields
    nothing. *)
Theorem next_schedules_terminates `{Croniter} (crontab : string)
    (start_at stop_at resolution : Z) :
  let run := next_schedules crontab start_at stop_at resolution in
  ending run <> OutOfFuel
  /\ (forall fuel, (window_fuel start_at stop_at <= fuel)%nat ->
        next_schedules_fuel fuel crontab start_at stop_at resolution = run)
  /\ (forall i t, pulled run !! i = Some t -> stop_at <= t ->
        S i = length (pulled run))
  /\ (ending run = StopIteration ->
        exists t, last (pulled run) = Some t /\ stop_at <= t)
  /\ (length (pulled run) <= window_fuel start_at stop_at)%nat
  /\ (start_at = stop_at -> yielded run = []).
Proof.
  assert (Hends : ending (next_schedules crontab start_at stop_at resolution)
                  <> OutOfFuel).
  { unfold next_schedules, next_schedules_fuel.
    destruct (croniter_new crontab) as [c |]; [| discriminate].
    apply all_next_loop_ends. unfold window_fuel. lia. }
  simpl. split; [exact Hends |]. split; [| split; [| split; [| split]]].
  - intros fuel Hfuel. revert Hends.
    unfold next_schedules, next_schedules_fuel.
    destruct (croniter_new crontab) as [c |]; [| reflexivity].
    intros Hends. apply all_next_loop_stable; assumption.
  - unfold next_schedules, next_schedules_fuel.
    destruct (croniter_new crontab) as [c |]; [| intros i t; discriminate].
    apply all_next_loop_pulled.
  - unfold next_schedules, next_schedules_fuel.
    destruct (croniter_new crontab) as [c |]; [| discriminate].
    apply all_next_loop_pulled.
  - unfold next_schedules, next_schedules_fuel.
    destruct (croniter_new crontab) as [c |]; [| simpl; lia].
    apply all_next_loop_pulled.
  - intros ->.
    destruct (next_schedules_fuel_sound (window_fuel stop_at stop_at)
                crontab stop_at stop_at resolution) as (Hwin & _).
    fold (next_schedules crontab stop_at stop_at resolution) in Hwin.
    destruct (yielded (next_schedules crontab stop_at stop_at resolution))
      as [| t l]; [reflexivity |].
    destruct (Hwin t (or_introl eq_refl)) as [Hcontra _]. lia.
Qed.

(** ** The delivery task *)

(** C4.  When the schedule re-fetched by id is inactive, the delivery task
    returns normally and its only external call is the store read: nothing
    is captured, formatted or sent, whatever the report type, the schedule
    id and the format columns of the record. *)
Theorem inactive_schedule_is_skipped (env : Env)
    (report_type : ScheduleType.t) (schedule_id : Z) (tr : log)
    (schedule : get_scheduler_model report_type) :
  oracle env _ tr (StoreGet report_type schedule_id) = inr (Some schedule) ->
  active (columns report_type schedule) = false ->
  schedule_email_report env report_type schedule_id tr
  = (inr tt,
     tr ++ [Called (StoreGet report_type schedule_id) (inr (Some schedule))]).
Proof.
  intros Hget Hinactive.
  unfold schedule_email_report, bind, perform.
  rewrite Hget, Hinactive. reflexivity.
Qed.

Lemma inactive_schedule_is_skipped_witness :
  schedule_email_report
    (example_env
       (store_holds ScheduleType.dashboard inactive_dashboard_schedule))
    ScheduleType.dashboard 7 []
  = (inr tt,
     [Called (StoreGet ScheduleType.dashboard 7)
        (inr (Some inactive_dashboard_schedule))]).
Proof.
  apply (inactive_schedule_is_skipped
           (example_env
              (store_holds ScheduleType.dashboard inactive_dashboard_schedule))
           ScheduleType.dashboard 7 [] inactive_dashboard_schedule);
    reflexivity.
Defined.

(** C10.  When the store has no record under the enqueued id, the delivery
    task fails: the active-flag check is applied to the missing record and
    raises, after the store read and before anything else. *)
Theorem missing_schedule_fails (env : Env)
    (report_type : ScheduleType.t) (schedule_id : Z) (tr : log) :
  oracle env _ tr (StoreGet report_type schedule_id) = inr None ->
  schedule_email_report env report_type schedule_id tr
  = (inl AttributeError,
     tr ++ [Called (StoreGet report_type schedule_id) (inr None)]).
Proof.
  intros Hget.
  unfold schedule_email_report, bind, perform.
  rewrite Hget. reflexivity.
Qed.

Lemma missing_schedule_fails_witness :
  schedule_email_report (example_env all_fine) ScheduleType.slice 7 []
  = (inl AttributeError, [Called (StoreGet ScheduleType.slice 7) (inr None)]).
Proof.
  apply (missing_schedule_fails (example_env all_fine) ScheduleType.slice 7 []).
  reflexivity.
Defined.

(** ** The hourly trigger *)

(** C5.  Once the clock is read, [schedule_hourly] raises [TypeError] at its
    first call of [schedule_window], which it makes with three arguments
    where four are required: the store is not read and nothing is
    enqueued, for neither report type. *)
Theorem schedule_hourly_raises_TypeError (env : Env) `{Croniter}
    (tr : log) (now : Z) :
  oracle env _ tr DatetimeNow = inr now ->
  schedule_hourly env tr = (inl TypeError, tr ++ [Called DatetimeNow (inr now)]).
Proof.
  intros Hnow.
  unfold schedule_hourly, bind, perform.
  rewrite Hnow. reflexivity.
Qed.

Lemma schedule_hourly_raises_TypeError_witness :
  schedule_hourly (example_env all_fine) []
  = (inl TypeError, [Called DatetimeNow (inr 1704069000)]).
Proof.
  apply (schedule_hourly_raises_TypeError (example_env all_fine) [] 1704069000).
  reflexivity.
Defined.

(** With the fourth argument supplied, the same window reaches the store
    and the task queue. *)
Lemma call_schedule_window_with_resolution (env : Env) `{Croniter}
    (rt : ScheduleType.t) (start_at stop_at resolution : Z) :
  call_schedule_window env
    [PyScheduleType rt; PyDatetime start_at; PyDatetime stop_at;
     PyInt resolution]
  = schedule_window env rt start_at stop_at resolution.
Proof. reflexivity. Qed.

(** ** Recipients and dispatch *)

(** C6 (counterexample).  With recipients a@x.com,b@x.com and a transport
    that refuses a@x.com, no send is attempted for b@x.com. *)
Lemma sends_are_not_independent : ~ sends_are_independent.
Proof.
  intros Hind.
  specialize (Hind (example_env transport_refuses_a) example_columns
                "[Report] Births" example_email [] eq_refl "b@x.com").
  assert (Hb : In "b@x.com"
                 (get_email_address_list (example_env transport_refuses_a)
                    (recipients example_columns))).
  { vm_compute. right. left. reflexivity. }
  specialize (Hind Hb). vm_compute in Hind.
  destruct Hind as [Hhead | []]. discriminate Hhead.
Qed.

Section Dispatch.

Context (env : Env) (subject : string) (email : EmailContent).

Let send : to_value * option string -> M unit :=
  fun '(to, bcc) =>
    perform env
      (SendEmailSmtp to subject (body email) (data email) (images email)
         bcc "related").

(** The sends of a recipient list: they follow the list in order up to
    the first one that raises, which ends the loop. *)
Lemma for_each_send (l : list (to_value * option string)) :
  forall tr,
    exists evs,
      snd (for_each l send tr) = tr ++ evs
      /\ omap send_of evs = take (length evs) l
      /\ match fst (for_each l send tr) with
         | inr _ =>
             length evs = length l
             /\ Forall (fun ev => succeeded ev = true) evs
         | inl e =>
             exists evs0 ev,
               evs = evs0 ++ [ev]
               /\ Forall (fun ev => succeeded ev = true) evs0
               /\ ev_result ev = inl e
         end.
Proof.
  induction l as [| [to bcc] l IH]; intros tr.
  - exists []. simpl. rewrite app_nil_r. repeat split. constructor.
  - simpl. unfold bind, perform.
    set (c := SendEmailSmtp to subject (body email) (data email)
                (images email) bcc "related").
    destruct (oracle env unit tr c) as [e | []] eqn:Eres.
    + exists [Called c (inl e)]. simpl. repeat split.
      exists [], (Called c (inl e)). repeat split. constructor.
    + destruct (IH (tr ++ [Called c (inr tt)])) as (evs & Hlog & Hsends & Hend).
      exists (Called c (inr tt) :: evs). split; [| split].
      * rewrite Hlog, <- app_assoc. reflexivity.
      * simpl. f_equal. exact Hsends.
      * destruct (fst (for_each l send (tr ++ [Called c (inr tt)])))
          as [e | u].
        -- destruct Hend as (evs0 & ev & -> & Hok & Hres).
           exists (Called c (inr tt) :: evs0), ev.
           repeat split; [constructor; [reflexivity | exact Hok] | exact Hres].
        -- destruct Hend as [Hlen Hok]. split; [simpl; lia |].
           constructor; [reflexivity | exact Hok].
Qed.

End Dispatch.

(** C6 (amended).  [_deliver_email] attempts the sends in the order of the
    recipient list.  If no send raises, every recipient gets exactly one
    send.  If a send raises, the sends before it succeeded, the exception
    leaves [_deliver_email], and no send is attempted for the recipients
    after it. *)
Theorem deliver_email_stops_at_first_failure (env : Env)
    (schedule : EmailSchedule) (subject : string) (email : EmailContent)
    (tr : log) :
  let out := _deliver_email env schedule subject email tr in
  exists evs,
    snd out = tr ++ evs
    /\ omap send_of evs = take (length evs) (_get_recipients env schedule)
    /\ match fst out with
       | inr _ =>
           length evs = length (_get_recipients env schedule)
           /\ Forall (fun ev => succeeded ev = true) evs
       | inl e =>
           exists evs0 ev,
             evs = evs0 ++ [ev]
             /\ Forall (fun ev => succeeded ev = true) evs0
             /\ ev_result ev = inl e
       end.
Proof. apply for_each_send. Qed.

(** C7.  For a schedule delivered as a group to "team@x.com", with the
    configured bcc "audit@x.com", [_deliver_email] makes exactly one call
    of the mail transport: its [to] is the one-element tuple holding the
    whole recipient specification and its bcc is audit@x.com. *)
Theorem group_delivery_is_one_send (env : Env) (schedule : EmailSchedule)
    (subject : string) (email : EmailContent) (tr : log) :
  deliver_as_group schedule = true ->
  recipients schedule = "team@x.com" ->
  EMAIL_REPORT_BCC_ADDRESS (config env) = Some "audit@x.com" ->
  let c :=
    SendEmailSmtp (ToTuple ["team@x.com"]) subject (body email) (data email)
      (images email) (Some "audit@x.com") "related" in
  let out := _deliver_email env schedule subject email tr in
  snd out = tr ++ [Called c (oracle env unit tr c)]
  /\ sends (snd out)
     = sends tr ++ [(ToTuple ["team@x.com"], Some "audit@x.com")].
Proof.
  intros Hgroup Hto Hbcc c out.
  assert (Hlog : snd out = tr ++ [Called c (oracle env unit tr c)]).
  { subst out. unfold _deliver_email, _get_recipients.
    rewrite Hgroup, Hto, Hbcc. simpl. unfold bind, perform. fold c.
    destruct (oracle env unit tr c) as [e | []]; reflexivity. }
  split; [exact Hlog |].
  rewrite Hlog. unfold sends. rewrite omap_app. reflexivity.
Qed.

Lemma group_delivery_is_one_send_witness :
  sends (snd (_deliver_email (example_env all_fine)
                (as_group "team@x.com" example_columns)
                "[Report] Births" example_email []))
  = [(ToTuple ["team@x.com"], Some "audit@x.com")].
Proof.
  apply (group_delivery_is_one_send (example_env all_fine)
           (as_group "team@x.com" example_columns)
           "[Report] Births" example_email []); reflexivity.
Defined.

(** ** Formats and capture *)

(** X14.  An unrecognised [email_format] is refused by [deliver_slice]
    before any external call. *)
Lemma deliver_slice_unknown_format (env : Env) (schedule : SliceEmailSchedule)
    (tr : log) :
  email_format schedule = None ->
  deliver_slice env schedule tr
  = (inl (RuntimeError "Unknown email report format"), tr).
Proof.
  intros Hformat. unfold deliver_slice, bind. rewrite Hformat. reflexivity.
Qed.

(** C8.  A schedule whose [delivery_type] is not set fails only once the
    artifact has been fetched.  A dashboard schedule creates a browser
    session, navigates, captures the screenshot and quits the session
    (eight calls over the network) before [_generate_mail_content] raises
    [UnboundLocalError]; a slice schedule in data format logs in and fetches
    the export before [_get_slice_data] raises the same error.  In both
    flows nothing is sent. *)
Theorem unset_delivery_type_fails_after_capture :
  let columns := with_delivery_type None example_columns in
  let dash :=
    deliver_dashboard (example_env all_fine) (dashboard_schedule columns) [] in
  let slc :=
    deliver_slice (example_env all_fine)
      (slice_schedule columns (Some SliceEmailReportFormat.data)) [] in
  (fst dash = inl UnboundLocalError
   /\ omap opened_by (snd dash) = [0%nat]
   /\ length (filter (fun ev => is_network ev = true) (snd dash)) = 8%nat
   /\ sends (snd dash) = [])
  /\ (fst slc = inl UnboundLocalError
      /\ length (filter (fun ev => is_network ev = true) (snd slc)) = 1%nat
      /\ sends (snd slc) = []).
Proof. vm_compute. repeat split; reflexivity. Qed.

(** The capture step itself always ends with [driver.quit()]: after the
    element screenshot, after the full-page screenshot, and when either of
    them raises. *)
Lemma capture_quits (env : Env) (d : driver) (e : element) (tr : log) :
  exists evs r,
    snd (capture env d e tr) = tr ++ evs ++ [Called (DriverQuit d) r].
Proof.
  unfold capture, try_finally, try_except, perform.
  set (shot := oracle env bytes tr (ScreenshotAsPng e)).
  destruct shot as [x | b] eqn:Eshot.
  - destruct (is_WebDriverException x).
    + set (tr1 := tr ++ [Called (ScreenshotAsPng e) (inl x)]).
      set (page := oracle env bytes tr1 (DriverScreenshot d)).
      set (tr2 := tr1 ++ [Called (DriverScreenshot d) page]).
      exists [Called (ScreenshotAsPng e) (inl x);
              Called (DriverScreenshot d) page],
             (oracle env unit tr2 (DriverQuit d)).
      destruct (oracle env unit tr2 (DriverQuit d)) as [y | []];
        subst tr2 tr1; simpl; rewrite <- !app_assoc; reflexivity.
    + set (tr1 := tr ++ [Called (ScreenshotAsPng e) (inl x)]).
      exists [Called (ScreenshotAsPng e) (inl x)],
             (oracle env unit tr1 (DriverQuit d)).
      destruct (oracle env unit tr1 (DriverQuit d)) as [y | []];
        subst tr1; simpl; rewrite <- !app_assoc; reflexivity.
  - set (tr1 := tr ++ [Called (ScreenshotAsPng e) (inr b)]).
    exists [Called (ScreenshotAsPng e) (inr b)],
           (oracle env unit tr1 (DriverQuit d)).
    destruct (oracle env unit tr1 (DriverQuit d)) as [y | []];
      subst tr1; simpl; rewrite <- !app_assoc; reflexivity.
Qed.

(** C9.  When the element lookup raises after the browser session has been
    created, both screenshot flows return with the exception and the
    session is never terminated: the lookup runs before the [try] whose
    [finally] clause quits the driver. *)
Theorem missing_element_leaks_browser_session :
  let dash :=
    deliver_dashboard (example_env element_missing)
      (dashboard_schedule example_columns) [] in
  let slc :=
    _get_slice_visualization (example_env element_missing)
      (slice_schedule example_columns
         (Some SliceEmailReportFormat.visualization)) [] in
  (fst dash = inl NoSuchElementException
   /\ omap opened_by (snd dash) = [0%nat]
   /\ omap quit_by (snd dash) = []
   /\ leaked (snd dash) = [0%nat])
  /\ (fst slc = inl NoSuchElementException
      /\ omap opened_by (snd slc) = [0%nat]
      /\ omap quit_by (snd slc) = []
      /\ leaked (snd slc) = [0%nat]).
Proof. vm_compute. repeat split; reflexivity. Qed.

(* ===================================================================== *)
(** * Part VI: further properties of the code                             *)
(* ===================================================================== *)

(** ** The cron window resolver *)

(** What a scan returns: the first matching minute of the run, or the
    minute after a run without a match. *)
Lemma scan_first (f : Z -> bool) (p : positive) : forall t,
  match Cron.scan p f t with
  | inl r =>
      exists n, 0 <= n /\ r = t + 60 * n /\ f r = true
                /\ forall k, 0 <= k < n -> f (t + 60 * k) = false
  | inr t' =>
      t' = t + 60 * Z.pos p
      /\ forall k, 0 <= k < Z.pos p -> f (t + 60 * k) = false
  end.
Proof.
  induction p as [p IH | p IH |]; intros t; simpl.
  - destruct (f t) eqn:Eft.
    { exists 0. repeat split; [lia | lia | exact Eft | lia]. }
    specialize (IH (t + 60)) as IH1.
    destruct (Cron.scan p f (t + 60)) as [r | t1].
    + destruct IH1 as (n & Hn & -> & Hr & Hnone).
      exists (n + 1). split; [lia |]. split; [lia |]. split; [exact Hr |].
      intros k Hk. destruct (Z.eq_dec k 0) as [-> | Hk0].
      * rewrite Z.add_0_r. exact Eft.
      * replace (t + 60 * k) with (t + 60 + 60 * (k - 1)) by lia.
        apply Hnone. lia.
    + destruct IH1 as (-> & Hnone1).
      assert (Hrun1 : forall k, 0 <= k < Z.pos p + 1 ->
                                f (t + 60 * k) = false).
      { intros k Hk. destruct (Z.eq_dec k 0) as [-> | Hk0].
        - rewrite Z.add_0_r. exact Eft.
        - replace (t + 60 * k) with (t + 60 + 60 * (k - 1)) by lia.
          apply Hnone1. lia. }
      specialize (IH (t + 60 + 60 * Z.pos p)) as IH2.
      destruct (Cron.scan p f (t + 60 + 60 * Z.pos p)) as [r | t2].
      * destruct IH2 as (n & Hn & -> & Hr & Hnone2).
        exists (Z.pos p + 1 + n). split; [lia |]. split; [lia |].
        split; [exact Hr |]. intros k Hk.
        destruct (Z_lt_dec k (Z.pos p + 1)) as [Hlow | Hhigh].
        -- apply Hrun1. lia.
        -- replace (t + 60 * k)
             with (t + 60 + 60 * Z.pos p + 60 * (k - (Z.pos p + 1))) by lia.
           apply Hnone2. lia.
      * destruct IH2 as (-> & Hnone2). split; [lia |]. intros k Hk.
        destruct (Z_lt_dec k (Z.pos p + 1)) as [Hlow | Hhigh].
        -- apply Hrun1. lia.
        -- replace (t + 60 * k)
             with (t + 60 + 60 * Z.pos p + 60 * (k - (Z.pos p + 1))) by lia.
           apply Hnone2. lia.
  - specialize (IH t) as IH1.
    destruct (Cron.scan p f t) as [r | t1]; [exact IH1 |].
    destruct IH1 as (-> & Hnone1).
    specialize (IH (t + 60 * Z.pos p)) as IH2.
    destruct (Cron.scan p f (t + 60 * Z.pos p)) as [r | t2].
    + destruct IH2 as (n & Hn & -> & Hr & Hnone2).
      exists (Z.pos p + n). split; [lia |]. split; [lia |].
      split; [exact Hr |]. intros k Hk.
      destruct (Z_lt_dec k (Z.pos p)) as [Hlow | Hhigh].
      * apply Hnone1. lia.
      * replace (t + 60 * k)
          with (t + 60 * Z.pos p + 60 * (k - Z.pos p)) by lia.
        apply Hnone2. lia.
    + destruct IH2 as (-> & Hnone2). split; [lia |]. intros k Hk.
      destruct (Z_lt_dec k (Z.pos p)) as [Hlow | Hhigh].
      * apply Hnone1. lia.
      * replace (t + 60 * k)
          with (t + 60 * Z.pos p + 60 * (k - Z.pos p)) by lia.
        apply Hnone2. lia.
  - destruct (f t) eqn:Eft.
    + exists 0. repeat split; [lia | lia | exact Eft | lia].
    + split; [lia |]. intros k Hk. replace k with 0 by lia.
      rewrite Z.add_0_r. exact Eft.
Qed.

(** The five-field iterator skips no firing time. *)
Lemma cron_get_next_first e t t' :
  Cron.get_next e t = Some t' ->
  forall u, t < u < t' -> Cron.matches e u = false.
Proof.
  unfold Cron.get_next. intros Hnext u Hu.
  pose proof (scan_first (Cron.matches e) Cron.horizon ((t / 60 + 1) * 60))
    as Hscan.
  destruct (Cron.scan Cron.horizon (Cron.matches e) ((t / 60 + 1) * 60))
    as [r | r]; [| discriminate].
  injection Hnext as <-.
  destruct Hscan as (n & Hn & Hr & _ & Hnone).
  destruct (Z.eqb_spec (u mod 60) 0) as [Hmin | Hsec].
  - pose proof (Z.div_mod u 60 ltac:(lia)) as Hu60.
    pose proof (Z.div_mod t 60 ltac:(lia)) as Ht60.
    pose proof (Z.mod_pos_bound t 60 ltac:(lia)) as Htm.
    replace u with ((t / 60 + 1) * 60 + 60 * (u / 60 - (t / 60 + 1))) by lia.
    apply Hnone. lia.
  - unfold Cron.matches. apply Z.eqb_neq in Hsec. rewrite Hsec. reflexivity.
Qed.

Section ResolverCompleteness.

Context `{Croniter}.

(** With no throttling, a run that leaves the loop has kept every firing
    time between the iterator's current time and the end of the window,
    provided the iterator skips none. *)
Lemma all_next_loop_complete c start_at stop_at resolution :
  (forall cur eta u, get_next c cur = Some eta -> cur < u < eta ->
                     cron_match c u = false) ->
  resolution <= 0 ->
  forall fuel cur previous,
    start_at <= cur -> previous <= cur ->
    ending (all_next_loop fuel c cur previous start_at stop_at resolution)
    = StopIteration ->
    forall t, cur < t < stop_at -> cron_match c t = true ->
      In t (yielded
              (all_next_loop fuel c cur previous start_at stop_at resolution)).
Proof.
  intros Hfirst Hres.
  induction fuel as [| fuel IH]; intros cur previous Hstart Hprev Hend t Ht Hm;
    simpl in *; [discriminate |].
  destruct (get_next c cur) as [eta |] eqn:Enext; [| discriminate].
  pose proof (get_next_later _ _ _ Enext) as Hlater.
  destruct (Z.geb_spec eta stop_at) as [Hge | Hlt].
  { rewrite (Hfirst cur eta t Enext) in Hm; [discriminate | lia]. }
  destruct (Z.ltb_spec eta start_at) as [Hbefore | _]; [lia |].
  destruct (Z.ltb_spec (eta - previous) resolution) as [Hclose | _]; [lia |].
  simpl in *.
  destruct (Z.eq_dec t eta) as [-> | Hne]; [left; reflexivity |].
  destruct (Z_lt_dec t eta) as [Hskipped | Hafter].
  { rewrite (Hfirst cur eta t Enext) in Hm; [discriminate | lia]. }
  right. apply IH; [lia | lia | exact Hend | lia | exact Hm].
Qed.

End ResolverCompleteness.

(** X1.  Without throttling ([resolution <= 0]), a run of [next_schedules]
    that leaves its loop has yielded every firing time strictly between
    [start_at] and [stop_at], for a cron iterator that returns the first
    firing time after its current time. *)
Theorem next_schedules_complete `{Croniter} (crontab : string) (c : cron)
    (start_at stop_at resolution t : Z) :
  (forall cur eta u, get_next c cur = Some eta -> cur < u < eta ->
                     cron_match c u = false) ->
  croniter_new crontab = Some c ->
  resolution <= 0 ->
  Time.datetime_min <= start_at ->
  ending (next_schedules crontab start_at stop_at resolution) = StopIteration ->
  start_at < t < stop_at ->
  cron_match c t = true ->
  In t (yielded (next_schedules crontab start_at stop_at resolution)).
Proof.
  unfold next_schedules, next_schedules_fuel.
  intros Hfirst -> Hres Hmin Hend Ht Hm.
  apply all_next_loop_complete; try assumption. lia.
Qed.

(** The methods of the five-field iterator are the functions of [Cron]. *)
Lemma five_field_get_next : @get_next five_field_croniter = Cron.get_next.
Proof. exact (@eq_refl _ Cron.get_next). Qed.

Lemma five_field_cron_match : @cron_match five_field_croniter = Cron.matches.
Proof. exact (@eq_refl _ Cron.matches). Qed.

Lemma five_field_first (c : @cron five_field_croniter) (cur eta u : Z) :
  get_next c cur = Some eta -> cur < u < eta -> cron_match c u = false.
Proof.
  rewrite five_field_get_next, five_field_cron_match.
  intros Hnext Hu. exact (cron_get_next_first c cur eta Hnext u Hu).
Qed.

Lemma next_schedules_complete_witness :
  In 1704074400
     (yielded (next_schedules "0 * * * *" 1704067200 1704078000 0)).
Proof.
  refine (next_schedules_complete (H := five_field_croniter) "0 * * * *"
            every_hour 1704067200 1704078000 0 1704074400 _ _ _ _ _ _ _).
  - apply five_field_first.
  - reflexivity.
  - lia.
  - unfold Time.datetime_min. lia.
  - vm_compute. reflexivity.
  - lia.
  - vm_compute. reflexivity.
Defined.

(** X2.  The first firing time after [start_at] is kept whenever it lies
    in the window and the resolution does not exceed its distance from
    [datetime.min]: the throttle never suppresses the first timestamp. *)
Theorem next_schedules_keeps_first `{Croniter} (crontab : string) (c : cron)
    (start_at stop_at resolution eta : Z) :
  croniter_new crontab = Some c ->
  get_next c start_at = Some eta ->
  eta < stop_at ->
  resolution <= eta - Time.datetime_min ->
  exists rest,
    yielded (next_schedules crontab start_at stop_at resolution) = eta :: rest.
Proof.
  intros Hnew Hnext Hin Hres.
  pose proof (get_next_later _ _ _ Hnext) as Hlater.
  unfold next_schedules, next_schedules_fuel, window_fuel. rewrite Hnew.
  simpl. rewrite Hnext.
  destruct (Z.geb_spec eta stop_at) as [Hge | _]; [lia |].
  destruct (Z.ltb_spec eta start_at) as [Hbefore | _]; [lia |].
  destruct (Z.ltb_spec (eta - Time.datetime_min) resolution) as [Hclose | _];
    [lia |].
  simpl. eexists. reflexivity.
Qed.

Lemma next_schedules_keeps_first_witness :
  exists rest,
    yielded (next_schedules "0 * * * *" 1704067200 1704078000 0)
    = 1704070800 :: rest.
Proof.
  refine (next_schedules_keeps_first (H := five_field_croniter) "0 * * * *"
            every_hour 1704067200 1704078000 0 1704070800 _ _ _ _).
  - reflexivity.
  - vm_compute. reflexivity.
  - lia.
  - unfold Time.datetime_min. lia.
Defined.

(** ** Footprints of the combinators *)

Lemma emits_ret {A} (P : event -> Prop) (a : A) : emits P (ret a).
Proof. intros tr. exists []. simpl. rewrite app_nil_r. split; constructor. Qed.

Lemma emits_raise {A} (P : event -> Prop) (e : exn) : emits P (@raise A e).
Proof. intros tr. exists []. simpl. rewrite app_nil_r. split; constructor. Qed.

Lemma emits_bind {A B} (P : event -> Prop) (m : M A) (k : A -> M B) :
  emits P m -> (forall a, emits P (k a)) -> emits P (bind m k).
Proof.
  intros Hm Hk tr. unfold bind.
  destruct (Hm tr) as (evs1 & Hlog1 & HP1).
  destruct (m tr) as [[e | a] tr1]; simpl in Hlog1; subst tr1.
  - exists evs1. split; [reflexivity | exact HP1].
  - destruct (Hk a (tr ++ evs1)) as (evs2 & Hlog2 & HP2).
    exists (evs1 ++ evs2). rewrite Hlog2, app_assoc.
    split; [reflexivity | apply Forall_app; split; assumption].
Qed.

Lemma emits_perform (env : Env) {T} (P : event -> Prop) (c : call T) :
  (forall r, P (Called c r)) -> emits P (perform env c).
Proof.
  intros HP tr. exists [Called c (oracle env T tr c)].
  split; [reflexivity | constructor; [apply HP | constructor]].
Qed.

Lemma emits_for_each {A} (P : event -> Prop) (l : list A) (f : A -> M unit) :
  (forall x, In x l -> emits P (f x)) -> emits P (for_each l f).
Proof.
  induction l as [| x l IH]; intros Hf; simpl.
  - apply emits_ret.
  - apply emits_bind.
    + apply Hf. left. reflexivity.
    + intros _. apply IH. intros y Hy. apply Hf. right. exact Hy.
Qed.

Lemma emits_try_except {A} (P : event -> Prop) (m : M A)
    (handles : exn -> bool) (handler : M A) :
  emits P m -> emits P handler -> emits P (try_except m handles handler).
Proof.
  intros Hm Hh tr. unfold try_except.
  destruct (Hm tr) as (evs1 & Hlog1 & HP1).
  destruct (m tr) as [[e | a] tr1]; simpl in Hlog1; subst tr1.
  - destruct (handles e).
    + destruct (Hh (tr ++ evs1)) as (evs2 & Hlog2 & HP2).
      exists (evs1 ++ evs2). rewrite Hlog2, app_assoc.
      split; [reflexivity | apply Forall_app; split; assumption].
    + exists evs1. split; [reflexivity | exact HP1].
  - exists evs1. split; [reflexivity | exact HP1].
Qed.

Lemma emits_try_finally {A} (P : event -> Prop) (m : M A) (final : M unit) :
  emits P m -> emits P final -> emits P (try_finally m final).
Proof.
  intros Hm Hf tr. unfold try_finally.
  destruct (Hm tr) as (evs1 & Hlog1 & HP1).
  destruct (m tr) as [r tr1]; simpl in Hlog1; subst tr1.
  destruct (Hf (tr ++ evs1)) as (evs2 & Hlog2 & HP2).
  exists (evs1 ++ evs2).
  destruct (final (tr ++ evs1)) as [[e | u] tr2]; simpl in *; subst tr2;
    rewrite app_assoc; (split; [reflexivity | apply Forall_app; split; assumption]).
Qed.

Lemma emits_weaken {A} (P Q : event -> Prop) (m : M A) :
  (forall ev, P ev -> Q ev) -> emits P m -> emits Q m.
Proof.
  intros HPQ Hm tr. destruct (Hm tr) as (evs & Hlog & HP).
  exists evs. split; [exact Hlog |]. eapply Forall_impl; [exact HP | exact HPQ].
Qed.

(** ** The dispatch loop *)

(** X3.  [schedule_window] does nothing but read the active schedules of
    its report type and enqueue delivery tasks of that report type whose
    eta lies in [start_at, stop_at): it never drives a browser, fetches an
    export or sends mail, also when it fails. *)
Theorem schedule_window_footprint (env : Env) `{Croniter}
    (report_type : ScheduleType.t) (start_at stop_at resolution : Z) :
  emits (is_dispatch_call report_type start_at stop_at)
        (schedule_window env report_type start_at stop_at resolution).
Proof.
  unfold schedule_window. apply emits_bind.
  - apply emits_perform. intros r. reflexivity.
  - intros schedules. apply emits_for_each. intros schedule _.
    unfold for_each_yielded. apply emits_bind.
    + apply emits_for_each. intros eta Heta.
      apply emits_perform. intros r. split; [reflexivity |].
      destruct (next_schedules_fuel_sound (window_fuel start_at stop_at)
                  (crontab (columns report_type schedule))
                  start_at stop_at resolution) as (Hwin & _).
      exact (proj1 (Hwin eta Heta)).
    + intros _. destruct (ending _); [apply emits_ret | apply emits_raise
                                      | apply emits_ret].
Qed.

Section Enqueue.

Context (env : Env) (rt : ScheduleType.t).

Hypothesis queue_accepts :
  forall tr schedule_id eta,
    oracle env unit tr (ApplyAsync rt schedule_id eta) = inr tt.

Lemma for_each_enqueue (schedule_id : Z) (etas : list Z) : forall tr,
  for_each etas (fun eta => perform env (ApplyAsync rt schedule_id eta)) tr
  = (inr tt, tr ++ enqueued rt schedule_id etas).
Proof.
  induction etas as [| eta etas IH]; intros tr; simpl.
  - unfold ret. rewrite app_nil_r. reflexivity.
  - unfold bind, perform. rewrite queue_accepts, IH, <- app_assoc.
    reflexivity.
Qed.

End Enqueue.

(** X4.  When the queue accepts every task and the resolver leaves its
    loop for every schedule, [schedule_window] returns normally after
    enqueueing, schedule by schedule in store order and in increasing eta
    within a schedule, exactly one task per timestamp yielded by
    [next_schedules], keyed by the report type and the schedule's id. *)
Theorem schedule_window_enqueues_all (env : Env) `{Croniter}
    (report_type : ScheduleType.t) (start_at stop_at resolution : Z)
    (tr : log) (schedules : list (get_scheduler_model report_type)) :
  oracle env _ tr (StoreFilterActive report_type) = inr schedules ->
  (forall tr' schedule_id eta,
     oracle env unit tr' (ApplyAsync report_type schedule_id eta) = inr tt) ->
  (forall schedule, In schedule schedules ->
     ending (next_schedules (crontab (columns report_type schedule))
               start_at stop_at resolution) = StopIteration) ->
  schedule_window env report_type start_at stop_at resolution tr
  = (inr tt,
     tr ++ Called (StoreFilterActive report_type) (inr schedules)
        :: flat_map
             (fun schedule =>
                enqueued report_type (id (columns report_type schedule))
                  (yielded
                     (next_schedules (crontab (columns report_type schedule))
                        start_at stop_at resolution)))
             schedules).
Proof.
  intros Hstore Hqueue Hends.
  unfold schedule_window, bind at 1, perform at 1. rewrite Hstore.
  replace (tr ++ Called (StoreFilterActive report_type) (inr schedules)
              :: flat_map _ schedules)
    with ((tr ++ [Called (StoreFilterActive report_type) (inr schedules)])
            ++ flat_map
                 (fun schedule =>
                    enqueued report_type (id (columns report_type schedule))
                      (yielded
                         (next_schedules
                            (crontab (columns report_type schedule))
                            start_at stop_at resolution)))
                 schedules)
    by (rewrite <- app_assoc; reflexivity).
  generalize (tr ++ [Called (StoreFilterActive report_type) (inr schedules)]).
  clear Hstore. induction schedules as [| schedule rest IH]; intros tr1; simpl.
  - unfold ret. rewrite app_nil_r. reflexivity.
  - unfold bind at 1, for_each_yielded, bind at 1.
    rewrite (for_each_enqueue env report_type Hqueue).
    rewrite (Hends schedule (or_introl eq_refl)). unfold ret at 1.
    rewrite IH, app_assoc; [reflexivity |].
    intros s Hs. apply Hends. right. exact Hs.
Qed.

Lemma schedule_window_enqueues_all_witness :
  schedule_window
    (example_env
       (store_lists ScheduleType.dashboard
          [dashboard_schedule example_columns]))
    ScheduleType.dashboard 1704067200 1704078000 0 []
  = (inr tt,
     [] ++ Called (StoreFilterActive ScheduleType.dashboard)
             (inr [dashboard_schedule example_columns])
        :: flat_map
             (fun schedule =>
                enqueued ScheduleType.dashboard
                  (id (columns ScheduleType.dashboard schedule))
                  (yielded
                     (next_schedules
                        (crontab (columns ScheduleType.dashboard schedule))
                        1704067200 1704078000 0)))
             [dashboard_schedule example_columns]).
Proof.
  refine (schedule_window_enqueues_all
            (example_env
               (store_lists ScheduleType.dashboard
                  [dashboard_schedule example_columns]))
            ScheduleType.dashboard 1704067200 1704078000 0 []
            [dashboard_schedule example_columns] _ _ _).
  - reflexivity.
  - intros tr' schedule_id eta. reflexivity.
  - intros schedule [<- | []]. vm_compute. reflexivity.
Defined.

(** X5.  A schedule whose crontab the cron library rejects stops the
    dispatch loop: when it is the first active schedule, [schedule_window]
    raises the library's error right after the store read and enqueues
    nothing, for that schedule and for all the schedules after it. *)
Theorem schedule_window_bad_crontab (env : Env) `{Croniter}
    (report_type : ScheduleType.t) (start_at stop_at resolution : Z)
    (tr : log) (bad : get_scheduler_model report_type)
    (rest : list (get_scheduler_model report_type)) :
  oracle env _ tr (StoreFilterActive report_type) = inr (bad :: rest) ->
  croniter_new (crontab (columns report_type bad)) = None ->
  schedule_window env report_type start_at stop_at resolution tr
  = (inl CroniterBadCronError,
     tr ++ [Called (StoreFilterActive report_type) (inr (bad :: rest))]).
Proof.
  intros Hstore Hbad.
  unfold schedule_window, bind at 1, perform at 1. rewrite Hstore. simpl.
  unfold bind at 1, for_each_yielded, next_schedules, next_schedules_fuel.
  rewrite Hbad. reflexivity.
Qed.

Lemma schedule_window_bad_crontab_witness :
  schedule_window
    (example_env
       (store_lists ScheduleType.dashboard
          [dashboard_schedule (with_crontab "hourly" example_columns);
           dashboard_schedule example_columns]))
    ScheduleType.dashboard 1704067200 1704078000 0 []
  = (inl CroniterBadCronError,
     [] ++ [Called (StoreFilterActive ScheduleType.dashboard)
              (inr [dashboard_schedule (with_crontab "hourly" example_columns);
                    dashboard_schedule example_columns])]).
Proof.
  refine (schedule_window_bad_crontab
            (example_env
               (store_lists ScheduleType.dashboard
                  [dashboard_schedule (with_crontab "hourly" example_columns);
                   dashboard_schedule example_columns]))
            ScheduleType.dashboard 1704067200 1704078000 0 []
            (dashboard_schedule (with_crontab "hourly" example_columns))
            [dashboard_schedule example_columns] _ _).
  - reflexivity.
  - reflexivity.
Defined.

(** ** Session cookies and the tabular export *)

(** X6.  [session_cookies], the loop of [_get_auth_cookies] over the
    response headers, makes no external call; when it succeeds, the
    cookies it returns are, in header order, the [session] values of the
    [Set-Cookie] headers (the header name compared without case), and
    headers of any other name are ignored. *)
Theorem session_cookies_result (env : Env) (headers : list (string * string)) :
  forall (acc cookies : list string) (tr tr' : log),
    session_cookies env headers acc tr = (inr cookies, tr') ->
    tr' = tr
    /\ cookies
       = acc ++ omap (fun h => parse_cookie env (snd h) !! "session")
                  (set_cookie_headers headers)
    /\ (length cookies
        = length acc + length (set_cookie_headers headers))%nat.
Proof.
  unfold set_cookie_headers.
  induction headers as [| [name value] headers IH];
    intros acc cookies tr tr' Hrun; simpl in Hrun.
  - injection Hrun as <- <-. simpl. rewrite app_nil_r.
    repeat split. lia.
  - rewrite filter_cons. simpl.
    destruct (String.eqb_spec (lower name) "set-cookie") as [Heq | Hne].
    + destruct (parse_cookie env value !! "session") as [cookie |] eqn:Ec;
        [| discriminate].
      destruct (IH _ _ _ _ Hrun) as (-> & -> & Hlen).
      rewrite decide_True by exact Heq. simpl. rewrite Ec. simpl.
      rewrite <- app_assoc. repeat split.
      rewrite !length_app in *. simpl in *. lia.
    + destruct (IH _ _ _ _ Hrun) as (-> & -> & Hlen).
      rewrite decide_False by exact Hne. repeat split. exact Hlen.
Qed.

Lemma session_cookies_result_witness :
  ([] : log) = []
  /\ ["s3cr3t"]
     = [] ++ omap (fun h => parse_cookie (example_env all_fine) (snd h)
                              !! "session")
               (set_cookie_headers
                  [("Content-Type", "text/html"); ("SET-COOKIE", "session=1")])
  /\ (length ["s3cr3t"]
      = length ([] : list string)
        + length (set_cookie_headers
                    [("Content-Type", "text/html");
                     ("SET-COOKIE", "session=1")]))%nat.
Proof.
  apply (session_cookies_result (example_env all_fine)
           [("Content-Type", "text/html"); ("SET-COOKIE", "session=1")]
           [] ["s3cr3t"] [] []).
  reflexivity.
Defined.

Lemma emits_session_cookies (env : Env) (P : event -> Prop)
    (headers : list (string * string)) :
  forall acc, emits P (session_cookies env headers acc).
Proof.
  induction headers as [| [name value] headers IH]; intros acc; simpl.
  - apply emits_ret.
  - destruct (String.eqb _ _); [| apply IH].
    destruct (_ !! _); [apply IH | apply emits_raise].
Qed.

Lemma emits_get_auth_cookies (env : Env) (P : event -> Prop) :
  (forall name r, P (Called (FindUser name) r)) ->
  (forall user r, P (Called (LoginUser user) r)) ->
  (forall r, P (Called SaveSession r)) ->
  emits P (_get_auth_cookies env).
Proof.
  intros Hfind Hlogin Hsave. unfold _get_auth_cookies.
  apply emits_bind; [apply emits_perform, Hfind | intros user].
  apply emits_bind; [apply emits_perform, Hlogin | intros _].
  apply emits_bind; [apply emits_perform, Hsave | intros headers].
  apply emits_session_cookies.
Qed.

(** X7.  [_get_slice_data] only logs the reports user in and issues the
    HTTP request for the export: it never creates a browser session and
    never sends mail, whatever the delivery type and however it ends. *)
Theorem get_slice_data_footprint (env : Env) (schedule : SliceEmailSchedule) :
  emits is_export_call (_get_slice_data env schedule).
Proof.
  unfold _get_slice_data.
  apply emits_bind.
  { apply emits_get_auth_cookies; intros; exact I. }
  intros auth. apply emits_bind.
  { apply emits_perform. intros r. exact I. }
  intros response. apply emits_bind.
  { destruct (status_ok response); [apply emits_ret | apply emits_raise]. }
  intros _. destruct (delivery_type _) as [[|] |].
  - apply emits_ret.
  - destruct (map _ _); [apply emits_raise | apply emits_ret].
  - apply emits_raise.
Qed.

(** Each session cookie overwrites the previous one in the jar. *)
Lemma cookie_jar_fold (auth : list string) :
  fold_left (fun (cookies : gmap string string) cookie =>
               <["session" := cookie]> cookies) auth ∅
  = cookie_jar auth.
Proof.
  unfold cookie_jar.
  assert (Hgen : forall (l : list string) (m : gmap string string),
            fold_left (fun (cookies : gmap string string) cookie =>
                         <["session" := cookie]> cookies) l m
            = match last l with
              | Some cookie => <["session" := cookie]> m
              | None => m
              end).
  { induction l as [| c l IH]; intros m; simpl; [reflexivity |].
    rewrite IH. destruct l as [| c' l]; simpl; [reflexivity |].
    destruct (last (c' :: l)) eqn:Elast; [apply insert_insert_eq |].
    apply last_None in Elast. discriminate. }
  rewrite Hgen. destruct (last auth); reflexivity.
Qed.

(** X8.  Once the login has produced the session cookies,
    [_get_slice_data] requests the export URL with a cookie jar that holds
    only the last session cookie; when the response has an error status
    it raises [HTTPError] right after the request, whatever the delivery
    type. *)
Theorem get_slice_data_http_error (env : Env) (schedule : SliceEmailSchedule)
    (tr tr1 : log) (auth : list string) (response : Response) :
  let slice_url :=
    urljoin env (WEBDRIVER_BASEURL (config env))
      (url_for env "Superset.slice_json"
         [("slice_id", pretty (slice_id (slice schedule))); ("csv", "true")]) in
  _get_auth_cookies env tr = (inr auth, tr1) ->
  oracle env _ tr1 (RequestsGet slice_url (cookie_jar auth)) = inr response ->
  status_ok response = false ->
  _get_slice_data env schedule tr
  = (inl HTTPError,
     tr1 ++ [Called (RequestsGet slice_url (cookie_jar auth)) (inr response)]).
Proof.
  intros slice_url Hauth Hget Hstatus.
  unfold _get_slice_data, bind at 1. rewrite Hauth.
  unfold bind at 1, perform. rewrite cookie_jar_fold. fold slice_url.
  rewrite Hget. unfold bind at 1. rewrite Hstatus. reflexivity.
Qed.

Lemma get_slice_data_http_error_witness :
  _get_slice_data (example_env export_refused)
    (slice_schedule example_columns (Some SliceEmailReportFormat.data)) []
  = (inl HTTPError,
     snd (_get_auth_cookies (example_env export_refused) [])
       ++ [Called
             (RequestsGet
                (urljoin (example_env export_refused)
                   (WEBDRIVER_BASEURL (config (example_env export_refused)))
                   (url_for (example_env export_refused) "Superset.slice_json"
                      [("slice_id",
                        pretty
                          (slice_id
                             (slice
                                (slice_schedule example_columns
                                   (Some SliceEmailReportFormat.data)))));
                       ("csv", "true")]))
                (cookie_jar ["s3cr3t"]))
             (inr {| status_ok := false; content := "Forbidden" |})]).
Proof.
  refine (get_slice_data_http_error (example_env export_refused)
            (slice_schedule example_columns (Some SliceEmailReportFormat.data))
            [] (snd (_get_auth_cookies (example_env export_refused) []))
            ["s3cr3t"] {| status_ok := false; content := "Forbidden" |}
            _ _ _).
  - reflexivity.
  - reflexivity.
  - reflexivity.
Defined.

(** ** The browser session *)

Lemma is_str_false (o : option string) (s : string) :
  o <> Some s -> is_str o s = false.
Proof.
  intros Hne. destruct o as [s' |]; simpl; [| reflexivity].
  destruct (String.eqb_spec s' s) as [-> | _]; [congruence | reflexivity].
Qed.

(** X9.  When the configured web driver is neither firefox nor chrome,
    [create_webdriver] raises [UnboundLocalError] without any external
    call: no browser is started. *)
Theorem create_webdriver_unsupported (env : Env) (tr : log) :
  EMAIL_REPORTS_WEBDRIVER (config env) <> Some "firefox" ->
  EMAIL_REPORTS_WEBDRIVER (config env) <> Some "chrome" ->
  create_webdriver env tr = (inl UnboundLocalError, tr).
Proof.
  intros Hfirefox Hchrome. unfold create_webdriver, bind at 1.
  rewrite (is_str_false _ _ Hfirefox), (is_str_false _ _ Hchrome).
  reflexivity.
Qed.

Lemma create_webdriver_unsupported_witness :
  create_webdriver
    (configured_env (with_webdriver (Some "safari") example_config) all_fine)
    []
  = (inl UnboundLocalError, []).
Proof.
  apply (create_webdriver_unsupported
           (configured_env (with_webdriver (Some "safari") example_config)
              all_fine) []);
    simpl; discriminate.
Defined.

(** X10.  [create_webdriver] never terminates a browser session and never
    sends mail: when it fails after the driver was started (the welcome
    page, the login or a cookie raising), the session it created stays
    open. *)
Theorem create_webdriver_keeps_session (env : Env) :
  emits keeps_session (create_webdriver env).
Proof.
  unfold create_webdriver.
  apply emits_bind.
  { destruct (is_str _ "firefox"); [apply emits_ret |].
    destruct (is_str _ "chrome"); [apply emits_ret | apply emits_raise]. }
  intros browser. apply emits_bind.
  { destruct (WEBDRIVER_CONFIGURATION _); [apply emits_ret | apply emits_raise]. }
  intros configuration. apply emits_bind.
  { apply emits_perform. intros r. split; reflexivity. }
  intros d. apply emits_bind.
  { apply emits_perform. intros r. split; reflexivity. }
  intros _. apply emits_bind.
  { apply emits_perform. intros r. split; reflexivity. }
  intros [| element elements]; [apply emits_ret |].
  apply emits_bind.
  { apply emits_get_auth_cookies; intros; split; reflexivity. }
  intros cookies. apply emits_bind; [| intros _; apply emits_ret].
  apply emits_for_each. intros cookie _.
  apply emits_perform. intros r. split; reflexivity.
Qed.

(** X11.  Whatever the element screenshot, the full-page screenshot and
    [quit] do, [capture] proceeds as follows: the full-page screenshot is
    taken exactly when the element screenshot raised a
    [WebDriverException]; [driver.quit()] is the last call in every case;
    the result is the screenshot taken last, or the exception it raised,
    unless [quit] itself raises, whose exception then wins. *)
Theorem capture_outcome (env : Env) (d : driver) (e : element) (tr : log) :
  let shot := oracle env bytes tr (ScreenshotAsPng e) in
  let tr1 := tr ++ [Called (ScreenshotAsPng e) shot] in
  let fallback :=
    match shot with
    | inl x => is_WebDriverException x
    | inr _ => false
    end in
  let page := oracle env bytes tr1 (DriverScreenshot d) in
  let tr2 :=
    if fallback then tr1 ++ [Called (DriverScreenshot d) page] else tr1 in
  let quit := oracle env unit tr2 (DriverQuit d) in
  capture env d e tr
  = (match quit with
     | inl x => inl x
     | inr _ => if fallback then page else shot
     end,
     tr2 ++ [Called (DriverQuit d) quit]).
Proof.
  unfold capture, try_finally, try_except, perform. simpl.
  destruct (oracle env bytes tr (ScreenshotAsPng e)) as [x | png].
  - destruct (is_WebDriverException x).
    + destruct (oracle env unit _ (DriverQuit d)) as [y | []]; reflexivity.
    + destruct (oracle env unit _ (DriverQuit d)) as [y | []]; reflexivity.
  - destruct (oracle env unit _ (DriverQuit d)) as [y | []]; reflexivity.
Qed.

(** ** The mail content *)

(** X12.  When [_generate_mail_content] succeeds, the schedule's delivery
    type is set and exactly one of the two mappings is populated: for an
    attachment, [data] maps screenshot.jpg to the screenshot, [images] is
    absent and no external call was made; for inline delivery, [data] is
    absent and [images] maps the message id, stripped of its first and last
    character, to the screenshot. *)
Theorem generate_mail_content_success (env : Env) (schedule : EmailSchedule)
    (screenshot : bytes) (name url : string) (tr tr' : log)
    (email : EmailContent) :
  _generate_mail_content env schedule screenshot name url tr
  = (inr email, tr') ->
  (delivery_type schedule = Some EmailDeliveryType.attachment
   /\ tr' = tr
   /\ data email = Some {[ "screenshot.jpg" := screenshot ]}
   /\ images email = None)
  \/ (delivery_type schedule = Some EmailDeliveryType.inline
      /\ data email = None
      /\ exists domain mid,
           tr' = tr ++ [Called (MakeMsgid domain) (inr mid)]
           /\ images email = Some {[ strip_ends mid := screenshot ]}).
Proof.
  unfold _generate_mail_content.
  destruct (delivery_type schedule) as [[|] |]; [| | discriminate].
  - intros [= <- <-]. left. repeat split.
  - unfold bind at 1, index.
    destruct (_ !! 1%nat) as [domain |]; [| discriminate].
    unfold ret at 1, bind, perform.
    destruct (oracle env string tr (MakeMsgid domain)) as [x | mid] eqn:Emid;
      [discriminate |].
    intros [= <- <-]. right. repeat split.
    exists domain, mid. split; reflexivity.
Qed.

Lemma generate_mail_content_success_witness :
  let schedule :=
    with_delivery_type (Some EmailDeliveryType.inline) example_columns in
  let out :=
    _generate_mail_content (example_env all_fine) schedule
      "PNG" "Births" "http://x/" [] in
  exists email,
    fst out = inr email
    /\ ((delivery_type schedule = Some EmailDeliveryType.attachment
         /\ snd out = []
         /\ data email = Some {[ "screenshot.jpg" := "PNG" ]}
         /\ images email = None)
        \/ (delivery_type schedule = Some EmailDeliveryType.inline
            /\ data email = None
            /\ exists domain mid,
                 snd out = [] ++ [Called (MakeMsgid domain) (inr mid)]
                 /\ images email = Some {[ strip_ends mid := "PNG" ]})).
Proof.
  intros schedule out. eexists. split; [reflexivity |].
  apply (generate_mail_content_success (example_env all_fine) schedule
           "PNG" "Births" "http://x/" []).
  reflexivity.
Defined.

Lemma split_on_absent (c : ascii) (s : string) :
  contains c s = false -> Cron.split_on c s = [s].
Proof.
  induction s as [| c' s IH]; simpl; [reflexivity |].
  intros Hc. apply orb_false_iff in Hc. destruct Hc as [Hhead Htail].
  rewrite Hhead, (IH Htail). reflexivity.
Qed.

(** X13.  For inline delivery, when the address part of the configured
    From address has no at sign, [_generate_mail_content] raises
    [IndexError] before a message id is made: no external call. *)
Theorem generate_mail_content_bad_from (env : Env) (schedule : EmailSchedule)
    (screenshot : bytes) (name url : string) (tr : log) :
  delivery_type schedule = Some EmailDeliveryType.inline ->
  contains "@"%char (snd (parseaddr env (SMTP_MAIL_FROM (config env)))) = false ->
  _generate_mail_content env schedule screenshot name url tr
  = (inl IndexError, tr).
Proof.
  intros Hinline Hfrom. unfold _generate_mail_content.
  rewrite Hinline, (split_on_absent _ _ Hfrom). reflexivity.
Qed.

Lemma generate_mail_content_bad_from_witness :
  _generate_mail_content
    (configured_env (with_mail_from (Some "superset") example_config) all_fine)
    (with_delivery_type (Some EmailDeliveryType.inline) example_columns)
    "PNG" "Births" "http://x/" []
  = (inl IndexError, []).
Proof.
  apply (generate_mail_content_bad_from
           (configured_env (with_mail_from (Some "superset") example_config)
              all_fine)
           (with_delivery_type (Some EmailDeliveryType.inline) example_columns)
           "PNG" "Births" "http://x/" []);
    reflexivity.
Defined.

Lemma deliver_slice_unknown_format_witness :
  deliver_slice (example_env all_fine) (slice_schedule example_columns None) []
  = (inl (RuntimeError "Unknown email report format"), []).
Proof.
  apply (deliver_slice_unknown_format (example_env all_fine)
           (slice_schedule example_columns None) []).
  reflexivity.
Defined.

(** ** Dispatch to the recipients *)

Lemma get_recipients_shape (env : Env) (schedule : EmailSchedule)
    (p : to_value * option string) :
  In p (_get_recipients env schedule) ->
  snd p = EMAIL_REPORT_BCC_ADDRESS (config env)
  /\ if deliver_as_group schedule
     then fst p = ToTuple [recipients schedule]
     else exists a, fst p = ToStr a
                    /\ In a (get_email_address_list env (recipients schedule)).
Proof.
  unfold _get_recipients. destruct (deliver_as_group schedule).
  - intros [<- | []]. split; reflexivity.
  - intros Hin. apply in_map_iff in Hin. destruct Hin as (a & <- & Ha).
    split; [reflexivity |]. exists a. split; [reflexivity | exact Ha].
Qed.

(** The calls of [_deliver_email] are sends to its recipients. *)
Lemma deliver_email_calls (env : Env) (schedule : EmailSchedule)
    (subject : string) (email : EmailContent) :
  emits (fun ev =>
           exists to,
             send_of ev = Some (to, EMAIL_REPORT_BCC_ADDRESS (config env))
             /\ if deliver_as_group schedule
                then to = ToTuple [recipients schedule]
                else exists a,
                       to = ToStr a
                       /\ In a (get_email_address_list env
                                  (recipients schedule)))
        (_deliver_email env schedule subject email).
Proof.
  unfold _deliver_email. apply emits_for_each. intros [to bcc] Hin.
  apply get_recipients_shape in Hin. simpl in Hin. destruct Hin as [-> Hto].
  apply emits_perform. intros r. exists to. split; [reflexivity | exact Hto].
Qed.

(** X15.  Every external call of [_deliver_email] is a send to the mail
    transport that carries the configured bcc address; its [to] is the
    one-element tuple of the whole recipient specification for a group
    delivery, and otherwise one address of the parsed recipient list. *)
Theorem deliver_email_footprint (env : Env) (schedule : EmailSchedule)
    (subject : string) (email : EmailContent) :
  emits (fun ev =>
           exists to,
             send_of ev = Some (to, EMAIL_REPORT_BCC_ADDRESS (config env))
             /\ if deliver_as_group schedule
                then to = ToTuple [recipients schedule]
                else exists a,
                       to = ToStr a
                       /\ In a (get_email_address_list env
                                  (recipients schedule)))
        (_deliver_email env schedule subject email).
Proof. apply deliver_email_calls. Qed.

(** ** The dashboard flow from end to end *)

Lemma bind_inr {A B} (m : M A) (k : A -> M B) (tr tr' : log) (b : B) :
  bind m k tr = (inr b, tr') ->
  exists a tr1, m tr = (inr a, tr1) /\ k a tr1 = (inr b, tr').
Proof.
  unfold bind. destruct (m tr) as [[e | a] tr1]; [discriminate |].
  intros Hk. exists a, tr1. split; [reflexivity | exact Hk].
Qed.

Lemma perform_inr (env : Env) {T} (c : call T) (tr tr' : log) (a : T) :
  perform env c tr = (inr a, tr') -> tr' = tr ++ [Called c (inr a)].
Proof. unfold perform. intros [= -> <-]. reflexivity. Qed.

Lemma emits_run {A} (P : event -> Prop) (m : M A) (tr tr' : log)
    (r : exn + A) :
  emits P m -> m tr = (r, tr') -> exists evs, tr' = tr ++ evs /\ Forall P evs.
Proof.
  intros Hm Hrun. destruct (Hm tr) as (evs & Hlog & HP).
  rewrite Hrun in Hlog. exists evs. split; [exact Hlog | exact HP].
Qed.

Lemma omap_neutral {B} (f : event -> option B) (evs : log) :
  Forall (fun ev => f ev = None) evs -> omap f evs = [].
Proof.
  induction 1 as [| ev evs Hev _ IH]; [reflexivity |].
  simpl. rewrite Hev. exact IH.
Qed.

Lemma neutral_log (evs : log) :
  Forall is_neutral evs ->
  omap opened_by evs = [] /\ omap quit_by evs = [] /\ sends evs = [].
Proof.
  intros Hn. unfold sends. repeat split; apply omap_neutral;
    (eapply Forall_impl; [exact Hn |]); intros ev (Ho & Hq & Hs); assumption.
Qed.

Lemma tally_app (evs1 evs2 : log) :
  tally (evs1 ++ evs2)
  = (fst (fst (tally evs1)) ++ fst (fst (tally evs2)),
     snd (fst (tally evs1)) ++ snd (fst (tally evs2)),
     snd (tally evs1) ++ snd (tally evs2)).
Proof. unfold tally, sends. rewrite !omap_app. reflexivity. Qed.

Lemma tally_neutral (evs : log) :
  Forall is_neutral evs -> tally evs = ([], [], []).
Proof.
  intros Hn. destruct (neutral_log evs Hn) as (Ho & Hq & Hs).
  unfold tally. rewrite Ho, Hq, Hs. reflexivity.
Qed.

Lemma create_webdriver_success (env : Env) (tr tr' : log) (d : driver) :
  create_webdriver env tr = (inr d, tr') ->
  exists evs, tr' = tr ++ evs /\ tally evs = ([d], [], []).
Proof.
  unfold create_webdriver. intros Hrun.
  apply bind_inr in Hrun as (browser & t1 & Hbrowser & Hrun).
  assert (t1 = tr) as ->.
  { destruct (is_str _ "firefox"); [injection Hbrowser as _ <-; reflexivity |].
    destruct (is_str _ "chrome"); [injection Hbrowser as _ <-; reflexivity |].
    discriminate. }
  apply bind_inr in Hrun as (configuration & t2 & Hconf & Hrun).
  assert (t2 = tr) as ->.
  { destruct (WEBDRIVER_CONFIGURATION _); [| discriminate].
    injection Hconf as _ <-. reflexivity. }
  apply bind_inr in Hrun as (d0 & t3 & Hnew & Hrun).
  apply perform_inr in Hnew as ->.
  assert (Hrest : exists evs, tr' = (tr ++ [Called (WebDriverNew browser
                    ["--headless"] configuration) (inr d0)]) ++ evs
                  /\ Forall is_neutral evs /\ d = d0).
  { apply bind_inr in Hrun as (u & t4 & Hget & Hrun).
    apply perform_inr in Hget as ->.
    apply bind_inr in Hrun as (elements & t5 & Hfind & Hrun).
    apply perform_inr in Hfind as ->.
    destruct elements as [| element elements].
    - injection Hrun as <- <-. eexists. rewrite <- !app_assoc.
      split; [reflexivity |]. split; [| reflexivity].
      repeat constructor.
    - apply bind_inr in Hrun as (cookies & t6 & Hauth & Hrun).
      apply bind_inr in Hrun as ([] & t7 & Hadd & Hrun).
      injection Hrun as <- <-.
      eapply (emits_run is_neutral) in Hauth as (evs1 & -> & Hn1);
        [| apply emits_get_auth_cookies; intros; repeat split].
      eapply (emits_run is_neutral) in Hadd as (evs2 & -> & Hn2);
        [| apply emits_for_each; intros cookie _; apply emits_perform;
           intros r; repeat split].
      eexists. rewrite <- !app_assoc. split; [reflexivity |].
      split; [| reflexivity].
      repeat (apply Forall_cons; split; [repeat split |]).
      apply Forall_app. split; assumption. }
  destruct Hrest as (evs & -> & Hn & ->).
  eexists. rewrite <- app_assoc. split; [reflexivity |].
  simpl. change (Called ?c ?r :: evs) with ([Called c r] ++ evs).
  rewrite tally_app, (tally_neutral evs Hn). reflexivity.
Qed.

Lemma capture_tally (env : Env) (d : driver) (e : element) (tr tr' : log)
    (r : exn + bytes) :
  capture env d e tr = (r, tr') ->
  exists evs, tr' = tr ++ evs /\ tally evs = ([], [d], []).
Proof.
  unfold capture, try_finally, try_except, perform.
  destruct (oracle env bytes tr (ScreenshotAsPng e)) as [x | png].
  - destruct (is_WebDriverException x).
    + destruct (oracle env unit _ (DriverQuit d)) as [y | []];
        intros [= <- <-]; eexists; rewrite <- !app_assoc;
        (split; [reflexivity | reflexivity]).
    + destruct (oracle env unit _ (DriverQuit d)) as [y | []];
        intros [= <- <-]; eexists; rewrite <- !app_assoc;
        (split; [reflexivity | reflexivity]).
  - destruct (oracle env unit _ (DriverQuit d)) as [y | []];
      intros [= <- <-]; eexists; rewrite <- !app_assoc;
      (split; [reflexivity | reflexivity]).
Qed.

Lemma send_is_no_session_call (ev : event) (p : to_value * option string) :
  send_of ev = Some p -> opened_by ev = None /\ quit_by ev = None.
Proof.
  destruct ev as [T c r]. destruct c; simpl; try discriminate.
  intros _. split; reflexivity.
Qed.

Lemma deliver_email_success (env : Env) (schedule : EmailSchedule)
    (subject : string) (email : EmailContent) (tr tr' : log) :
  _deliver_email env schedule subject email tr = (inr tt, tr') ->
  exists evs,
    tr' = tr ++ evs /\ tally evs = ([], [], _get_recipients env schedule).
Proof.
  intros Hrun.
  destruct (for_each_send env subject email (_get_recipients env schedule) tr)
    as (evs & Hlog & Hsends & Hend).
  destruct (deliver_email_calls env schedule subject email tr)
    as (evs' & Hlog' & Hcalls).
  unfold _deliver_email in Hrun, Hlog'. rewrite Hrun in Hlog, Hend, Hlog'.
  simpl in Hlog, Hend, Hlog'. rewrite Hlog in Hlog'.
  apply app_inv_head in Hlog'. subst evs'.
  exists evs. split; [exact Hlog |]. destruct Hend as [Hlen _].
  rewrite Hlen, firstn_all in Hsends.
  unfold tally, sends. rewrite Hsends.
  rewrite !omap_neutral; [reflexivity | |];
    (eapply Forall_impl; [exact Hcalls |]); intros ev (to & Hsend & _);
    apply send_is_no_session_call in Hsend; tauto.
Qed.

Lemma advances_trans (tr tr1 tr2 : log) o1 q1 s1 o2 q2 s2 :
  advances tr tr1 (o1, q1, s1) -> advances tr1 tr2 (o2, q2, s2) ->
  advances tr tr2 (o1 ++ o2, q1 ++ q2, s1 ++ s2).
Proof.
  intros (evs1 & -> & H1) (evs2 & -> & H2). exists (evs1 ++ evs2).
  rewrite app_assoc, tally_app, H1, H2. split; reflexivity.
Qed.

Lemma advances_neutral {A} (m : M A) (tr tr' : log) (r : exn + A) :
  emits is_neutral m -> m tr = (r, tr') -> advances tr tr' ([], [], []).
Proof.
  intros Hm Hrun. destruct (emits_run _ _ _ _ _ Hm Hrun) as (evs & -> & Hn).
  exists evs. split; [reflexivity | apply tally_neutral, Hn].
Qed.

Lemma emits_subscript {V} (P : event -> Prop) (d : option (gmap string V))
    (k : string) :
  emits P (subscript d k).
Proof.
  unfold subscript. destruct d as [m |]; [| apply emits_raise].
  destruct (m !! k); [apply emits_ret | apply emits_raise].
Qed.

Lemma emits_generate_mail_content (env : Env) (schedule : EmailSchedule)
    (screenshot : bytes) (name url : string) :
  emits is_neutral (_generate_mail_content env schedule screenshot name url).
Proof.
  unfold _generate_mail_content.
  destruct (delivery_type schedule) as [[|] |];
    [apply emits_ret | | apply emits_raise].
  apply emits_bind.
  { unfold index. destruct (_ !! _); [apply emits_ret | apply emits_raise]. }
  intros domain. apply emits_bind; [| intros mid; apply emits_ret].
  apply emits_perform. intros r. repeat split.
Qed.

(** X16.  When [deliver_dashboard] returns normally, it has created exactly
    one browser session, it has called [quit] on that session exactly
    once and on no other, and the sends it made are, in order, one per
    recipient of the schedule and no more. *)
Theorem deliver_dashboard_success (env : Env)
    (schedule : DashboardEmailSchedule) (tr tr' : log) :
  deliver_dashboard env schedule tr = (inr tt, tr') ->
  exists d evs,
    tr' = tr ++ evs
    /\ omap opened_by evs = [d]
    /\ omap quit_by evs = [d]
    /\ sends evs = _get_recipients env (dashboard_columns schedule).
Proof.
  unfold deliver_dashboard. intros Hrun.
  apply bind_inr in Hrun as (d & t1 & Hdriver & Hrun).
  apply create_webdriver_success in Hdriver.
  apply bind_inr in Hrun as (window & t2 & Hwindow & Hrun).
  apply (advances_neutral _ _ _ _ (emits_subscript _ _ _)) in Hwindow.
  apply bind_inr in Hrun as (u3 & t3 & Hsize & Hrun).
  eapply advances_neutral in Hsize;
    [| apply emits_perform; intros r; repeat split].
  apply bind_inr in Hrun as (u4 & t4 & Hget & Hrun).
  eapply advances_neutral in Hget;
    [| apply emits_perform; intros r; repeat split].
  apply bind_inr in Hrun as (u5 & t5 & Hsleep & Hrun).
  eapply advances_neutral in Hsleep;
    [| apply emits_perform; intros r; repeat split].
  apply bind_inr in Hrun as (element & t6 & Hfind & Hrun).
  eapply advances_neutral in Hfind;
    [| apply emits_try_except; apply emits_perform; intros r; repeat split].
  apply bind_inr in Hrun as (screenshot & t7 & Hshot & Hrun).
  apply capture_tally in Hshot.
  apply bind_inr in Hrun as (email & t8 & Hmail & Hrun).
  apply (advances_neutral _ _ _ _ (emits_generate_mail_content _ _ _ _ _))
    in Hmail.
  apply deliver_email_success in Hrun.
  pose proof
    (advances_trans _ _ _ _ _ _ _ _ _ Hdriver
       (advances_trans _ _ _ _ _ _ _ _ _ Hwindow
          (advances_trans _ _ _ _ _ _ _ _ _ Hsize
             (advances_trans _ _ _ _ _ _ _ _ _ Hget
                (advances_trans _ _ _ _ _ _ _ _ _ Hsleep
                   (advances_trans _ _ _ _ _ _ _ _ _ Hfind
                      (advances_trans _ _ _ _ _ _ _ _ _ Hshot
                         (advances_trans _ _ _ _ _ _ _ _ _
                            Hmail Hrun))))))))
    as (evs & Hlog & Htally).
  simpl in Htally. injection Htally as Hopened Hquit Hsends.
  exists d, evs. repeat split; assumption.
Qed.

Lemma deliver_dashboard_success_witness :
  exists d evs,
    snd (deliver_dashboard (example_env all_fine)
           (dashboard_schedule example_columns) [])
    = [] ++ evs
    /\ omap opened_by evs = [d]
    /\ omap quit_by evs = [d]
    /\ sends evs
       = _get_recipients (example_env all_fine)
           (dashboard_columns (dashboard_schedule example_columns)).
Proof.
  apply (deliver_dashboard_success (example_env all_fine)
           (dashboard_schedule example_columns) []).
  vm_compute. reflexivity.
Defined.

(** X17.  When [_get_slice_visualization] returns the mail content, it has
    created exactly one browser session, it has called [quit] on that
    session exactly once and on no other, and it has sent nothing. *)
Theorem get_slice_visualization_success (env : Env)
    (schedule : SliceEmailSchedule) (tr tr' : log) (email : EmailContent) :
  _get_slice_visualization env schedule tr = (inr email, tr') ->
  exists d evs,
    tr' = tr ++ evs
    /\ omap opened_by evs = [d]
    /\ omap quit_by evs = [d]
    /\ sends evs = [].
Proof.
  unfold _get_slice_visualization. intros Hrun.
  apply bind_inr in Hrun as (d & t1 & Hdriver & Hrun).
  apply create_webdriver_success in Hdriver.
  apply bind_inr in Hrun as (window & t2 & Hwindow & Hrun).
  apply (advances_neutral _ _ _ _ (emits_subscript _ _ _)) in Hwindow.
  apply bind_inr in Hrun as (u3 & t3 & Hsize & Hrun).
  eapply advances_neutral in Hsize;
    [| apply emits_perform; intros r; repeat split].
  apply bind_inr in Hrun as (u4 & t4 & Hget & Hrun).
  eapply advances_neutral in Hget;
    [| apply emits_perform; intros r; repeat split].
  apply bind_inr in Hrun as (u5 & t5 & Hsleep & Hrun).
  eapply advances_neutral in Hsleep;
    [| apply emits_perform; intros r; repeat split].
  apply bind_inr in Hrun as (element & t6 & Hfind & Hrun).
  eapply advances_neutral in Hfind;
    [| apply emits_try_except; apply emits_perform; intros r; repeat split].
  apply bind_inr in Hrun as (screenshot & t7 & Hshot & Hrun).
  apply capture_tally in Hshot.
  apply (advances_neutral _ _ _ _ (emits_generate_mail_content _ _ _ _ _))
    in Hrun.
  pose proof
    (advances_trans _ _ _ _ _ _ _ _ _ Hdriver
       (advances_trans _ _ _ _ _ _ _ _ _ Hwindow
          (advances_trans _ _ _ _ _ _ _ _ _ Hsize
             (advances_trans _ _ _ _ _ _ _ _ _ Hget
                (advances_trans _ _ _ _ _ _ _ _ _ Hsleep
                   (advances_trans _ _ _ _ _ _ _ _ _ Hfind
                      (advances_trans _ _ _ _ _ _ _ _ _ Hshot Hrun)))))))
    as (evs & Hlog & Htally).
  simpl in Htally. injection Htally as Hopened Hquit Hsends.
  exists d, evs. repeat split; assumption.
Qed.

Lemma get_slice_visualization_success_witness :
  exists d evs,
    snd (_get_slice_visualization (example_env all_fine)
           (slice_schedule example_columns
              (Some SliceEmailReportFormat.visualization)) [])
    = [] ++ evs
    /\ omap opened_by evs = [d]
    /\ omap quit_by evs = [d]
    /\ sends evs = [].
Proof.
  eapply (get_slice_visualization_success (example_env all_fine)
            (slice_schedule example_columns
               (Some SliceEmailReportFormat.visualization)) []).
  vm_compute. reflexivity.
Defined.

(** ** The tabular export, continued *)

(** X18.  When [_get_slice_data] returns the mail content, the export
    request was its last call and answered with a success status; the
    content never has inline images; for an attachment, [data] maps the
    slice name followed by .csv to the raw body of the response, and for
    inline delivery [data] is absent. *)
Theorem get_slice_data_success (env : Env) (schedule : SliceEmailSchedule)
    (tr tr' : log) (email : EmailContent) :
  _get_slice_data env schedule tr = (inr email, tr') ->
  exists tr1 url jar response,
    tr' = tr1 ++ [Called (RequestsGet url jar) (inr response)]
    /\ status_ok response = true
    /\ images email = None
    /\ ((delivery_type (slice_columns schedule)
         = Some EmailDeliveryType.attachment
         /\ data email
            = Some {[ slice_name (slice schedule) +:+ ".csv"
                      := content response ]})
        \/ (delivery_type (slice_columns schedule)
            = Some EmailDeliveryType.inline
            /\ data email = None)).
Proof.
  unfold _get_slice_data. intros Hrun.
  apply bind_inr in Hrun as (auth & t1 & Hauth & Hrun).
  apply bind_inr in Hrun as (response & t2 & Hget & Hrun).
  apply perform_inr in Hget as ->.
  apply bind_inr in Hrun as ([] & t3 & Hstatus & Hrun).
  destruct (status_ok response) eqn:Eok; [| discriminate].
  injection Hstatus as <-.
  eexists t1, _, _, response.
  destruct (delivery_type (slice_columns schedule)) as [[|] |];
    [| | discriminate].
  - injection Hrun as <- <-.
    split; [reflexivity |]. split; [exact Eok |]. split; [reflexivity |].
    left. split; reflexivity.
  - destruct (map _ _) as [| columns rows]; [discriminate |].
    injection Hrun as <- <-.
    split; [reflexivity |]. split; [exact Eok |]. split; [reflexivity |].
    right. split; reflexivity.
Qed.

Lemma get_slice_data_success_witness :
  let schedule :=
    slice_schedule example_columns (Some SliceEmailReportFormat.data) in
  let out := _get_slice_data (example_env all_fine) schedule [] in
  exists email,
    fst out = inr email
    /\ exists tr1 url jar response,
         snd out = tr1 ++ [Called (RequestsGet url jar) (inr response)]
         /\ status_ok response = true
         /\ images email = None
         /\ ((delivery_type (slice_columns schedule)
              = Some EmailDeliveryType.attachment
              /\ data email
                 = Some {[ slice_name (slice schedule) +:+ ".csv"
                           := content response ]})
             \/ (delivery_type (slice_columns schedule)
                 = Some EmailDeliveryType.inline
                 /\ data email = None)).
Proof.
  intros schedule out. eexists. split; [reflexivity |].
  apply (get_slice_data_success (example_env all_fine) schedule []).
  reflexivity.
Defined.

(** X19.  For inline delivery, an export whose body is empty makes
    [_get_slice_data] raise [IndexError] right after the request: there is
    no header row to take from the parsed rows. *)
Theorem get_slice_data_empty_export (env : Env)
    (schedule : SliceEmailSchedule) (tr tr1 : log) (auth : list string)
    (response : Response) :
  let slice_url :=
    urljoin env (WEBDRIVER_BASEURL (config env))
      (url_for env "Superset.slice_json"
         [("slice_id", pretty (slice_id (slice schedule))); ("csv", "true")]) in
  delivery_type (slice_columns schedule) = Some EmailDeliveryType.inline ->
  _get_auth_cookies env tr = (inr auth, tr1) ->
  oracle env _ tr1 (RequestsGet slice_url (cookie_jar auth)) = inr response ->
  status_ok response = true ->
  content response = EmptyString ->
  _get_slice_data env schedule tr
  = (inl IndexError,
     tr1 ++ [Called (RequestsGet slice_url (cookie_jar auth)) (inr response)]).
Proof.
  intros slice_url Hinline Hauth Hget Hstatus Hbody.
  unfold _get_slice_data, bind at 1. rewrite Hauth.
  unfold bind at 1, perform. rewrite cookie_jar_fold. fold slice_url.
  rewrite Hget. unfold bind at 1. rewrite Hstatus, Hinline, Hbody.
  reflexivity.
Qed.

Lemma get_slice_data_empty_export_witness :
  fst (_get_slice_data (example_env export_empty)
         (slice_schedule
            (with_delivery_type (Some EmailDeliveryType.inline) example_columns)
            (Some SliceEmailReportFormat.data)) [])
  = inl IndexError.
Proof.
  refine (f_equal fst
            (get_slice_data_empty_export (example_env export_empty)
               (slice_schedule
                  (with_delivery_type (Some EmailDeliveryType.inline)
                     example_columns)
                  (Some SliceEmailReportFormat.data))
               [] (snd (_get_auth_cookies (example_env export_empty) []))
               ["s3cr3t"] {| status_ok := true; content := EmptyString |}
               _ _ _ _ _));
    reflexivity.
Defined.

(** ** The cron window resolver, continued *)

Lemma all_next_loop_after `{Croniter} c start_at stop_at resolution :
  forall fuel cur previous,
    Forall (fun t => cur < t)
      (pulled (all_next_loop fuel c cur previous start_at stop_at resolution)).
Proof.
  induction fuel as [| fuel IH]; intros cur previous; simpl; [constructor |].
  destruct (get_next c cur) as [eta |] eqn:Enext; simpl; [| constructor].
  pose proof (get_next_later _ _ _ Enext) as Hlater.
  assert (Hrec : forall previous',
            Forall (fun t => cur < t)
              (eta :: pulled (all_next_loop fuel c eta previous'
                                start_at stop_at resolution))).
  { intros previous'. constructor; [exact Hlater |].
    eapply Forall_impl; [apply IH |]. simpl. intros t Ht. lia. }
  destruct (eta >=? stop_at); simpl; [repeat constructor; exact Hlater |].
  destruct (eta <? start_at); simpl; [apply Hrec |].
  destruct (eta - previous <? resolution); simpl; apply Hrec.
Qed.

(** X20.  Every candidate [next_schedules] pulls from the cron iterator,
    and so every timestamp it yields, is strictly after [start_at]: the
    iterator is seeded with [start_at] and only moves forward, so the
    test [eta < start_at] never holds and a firing time equal to
    [start_at] is never yielded. *)
Theorem next_schedules_after_start `{Croniter} (crontab : string)
    (start_at stop_at resolution : Z) :
  let run := next_schedules crontab start_at stop_at resolution in
  Forall (fun t => start_at < t) (pulled run)
  /\ Forall (fun t => start_at < t) (yielded run).
Proof.
  unfold next_schedules, next_schedules_fuel.
  destruct (croniter_new crontab) as [c |];
    [| simpl; split; constructor].
  cbv zeta. split; [apply all_next_loop_after |].
  destruct (all_next_loop_yielded c start_at stop_at resolution
              (window_fuel start_at stop_at) start_at Time.datetime_min)
    as (Hall & _).
  eapply Forall_impl; [exact Hall |]. simpl. intros t Ht. tauto.
Qed.
